(** * smallintset.c: a set of small integers stored in a packed,
      open-addressing table

    Shallow embedding of [src/smallintset.c] and the properties of its
    lookup, insertion, growth and rehash code.

    Conventions of the embedding:
    - [size_t] and [uint_t] are 64-bit; a value is a [Z] and the places
      where the C arithmetic can wrap around are written with [wrap].
    - a [jl_array_t] is its element type together with the list of its
      slots; a store into a [uintN_t] slot keeps the low N bits.
    - [abort()] is the result [Abort]; the one [assert] of the file is
      the result [Abort] when it fails and assertions are enabled, and
      nothing when they are compiled out (the parameter [assertions]);
      the two [while (1)] loops take a bound on their iterations and
      give [OutOfFuel] when it is reached.  The [do ... while] loops of the
      probes run at most [max_probe + 1] times; their bound is never
      reached ([lookup_total], [insert_total]).
    - memory orderings (relaxed, acquire, release) and the GC root and
      write-barrier calls have no counterpart in a sequential model. *)

From Stdlib Require Import ZArith Lia.
From stdpp Require Import base numbers list.

Local Open Scope Z_scope.

(** ** Results of the modelled functions *)

Inductive res (A : Type) : Type :=
| Ret (x : A)
| Abort
| OutOfFuel.
Arguments Ret {A} x.
Arguments Abort {A}.
Arguments OutOfFuel {A}.

Definition bind {A B : Type} (m : res A) (k : A → res B) : res B :=
  match m with
  | Ret x => k x
  | Abort => Abort
  | OutOfFuel => OutOfFuel
  end.

Notation "x <- m ;; k" := (bind m (λ x, k))
  (at level 100, m at next level, right associativity).

(** ** Machine integers *)

Definition wrap (x : Z) : Z := x mod 2 ^ 64.

(** ** Arrays *)

Inductive jl_eltype : Type :=
| jl_uint8_type
| jl_uint16_type
| jl_uint32_type
| jl_any_type
| jl_other_type.

Record jl_array_t : Type := JlArray {
  jl_tparam0 : jl_eltype;
  jl_array_data : list Z
}.

Definition jl_array_nrows (a : jl_array_t) : Z :=
  Z.of_nat (length (jl_array_data a)).

(** The slot at index [idx]; the callers only read inside the array. *)
Definition slot (l : list Z) (idx : Z) : Z := default 0 (l !! Z.to_nat idx).

(** [#define max_probe(size) ((size) <= 1024 ? 16 : (size) >> 6)] *)
Definition max_probe (size : Z) : Z :=
  if size <=? 1024 then 16 else Z.shiftr size 6.

(** [#define h2index(hv, sz) (size_t)((hv) & ((sz)-1))]; both callers
    have [sz >= 1], so [sz - 1] does not wrap. *)
Definition h2index (hv sz : Z) : Z := Z.land hv (sz - 1).

Definition jl_intref (arr : jl_array_t) (idx : Z) : res Z :=
  match jl_tparam0 arr with
  | jl_uint8_type | jl_uint16_type | jl_uint32_type =>
      Ret (slot (jl_array_data arr) idx)
  | _ => Abort
  end.

Definition jl_intref_acquire (arr : jl_array_t) (idx : Z) : res Z :=
  match jl_tparam0 arr with
  | jl_uint8_type | jl_uint16_type | jl_uint32_type =>
      Ret (slot (jl_array_data arr) idx)
  | _ => Abort
  end.

(** The store converts [val] to the element type of the array. *)
Definition jl_intset_release (arr : jl_array_t) (idx val : Z) : res jl_array_t :=
  match jl_tparam0 arr with
  | jl_uint8_type =>
      Ret (JlArray jl_uint8_type (<[Z.to_nat idx := val mod 2 ^ 8]> (jl_array_data arr)))
  | jl_uint16_type =>
      Ret (JlArray jl_uint16_type (<[Z.to_nat idx := val mod 2 ^ 16]> (jl_array_data arr)))
  | jl_uint32_type =>
      Ret (JlArray jl_uint32_type (<[Z.to_nat idx := val mod 2 ^ 32]> (jl_array_data arr)))
  | _ => Abort
  end.

Definition jl_max_int (arr : jl_array_t) : res Z :=
  match jl_tparam0 arr with
  | jl_uint8_type => Ret 0xFF
  | jl_uint16_type => Ret 0xFFFF
  | jl_uint32_type => Ret 0xFFFFFFFF
  | jl_any_type => Ret 0
  | jl_other_type => Abort
  end.

Section Code.

(** The key and the auxiliary data handed to the callbacks. *)
Context {K D : Type}.

(** The [assert] macro comes from [julia_assert.h], outside this file:
    [assertions] tells whether it checks its condition, or is compiled
    out and does nothing. *)
Variable assertions : bool.

(** [HT_N_INLINE] comes from a header outside this file. *)
Variable HT_N_INLINE : Z.

(** [jl_alloc_int_1d]: a zero-filled array of [len] slots whose element
    type is chosen from [np]; [assert(np < 0x7FFFFFFF)] guards the
    32-bit branch. *)
Definition jl_alloc_int_1d (np len : Z) : res jl_array_t :=
  if np <? 0xFF then
    Ret (JlArray jl_uint8_type (replicate (Z.to_nat len) 0))
  else if np <? 0xFFFF then
    Ret (JlArray jl_uint16_type (replicate (Z.to_nat len) 0))
  else if assertions && negb (np <? 0x7FFFFFFF) then Abort
  else Ret (JlArray jl_uint32_type (replicate (Z.to_nat len) 0)).

Definition smallintset_eq : Type := Z → K → D → Z → bool.
Definition smallintset_hash : Type := Z → D → Z.

(** *** jl_smallintset_lookup *)

(** The [do ... while] loop; [n] bounds the remaining iterations. *)
Fixpoint lookup_loop (n : nat) (cache : jl_array_t) (eq : smallintset_eq)
    (key : K) (data : D) (hv sz maxprobe orig index iter : Z) : res Z :=
  match n with
  | O => OutOfFuel
  | S n' =>
      val1 <- jl_intref_acquire cache index;;
      if val1 =? 0 then Ret (-1)
      else if eq (val1 - 1) key data hv then Ret (val1 - 1)
      else
        let index := Z.land (index + 1) (sz - 1) in
        let iter := iter + 1 in
        if (iter <=? maxprobe) && negb (index =? orig)
        then lookup_loop n' cache eq key data hv sz maxprobe orig index iter
        else Ret (-1)
  end.

Definition jl_smallintset_lookup (cache : jl_array_t) (eq : smallintset_eq)
    (key : K) (data : D) (hv : Z) : res Z :=
  let sz := jl_array_nrows cache in
  if sz =? 0 then Ret (-1)
  else
    let maxprobe := max_probe sz in
    let index := h2index hv sz in
    let orig := index in
    let iter := 0 in
    lookup_loop (S (Z.to_nat maxprobe)) cache eq key data hv sz maxprobe orig index iter.

(** *** smallintset_insert_ *)

(** The result pairs the returned [int] with the array after the call. *)
Fixpoint insert_loop_ (n : nat) (a : jl_array_t) (val1 sz maxprobe orig index iter : Z)
    : res (bool * jl_array_t) :=
  match n with
  | O => OutOfFuel
  | S n' =>
      v <- jl_intref a index;;
      if v =? 0 then
        a' <- jl_intset_release a index val1;;
        Ret (true, a')
      else
        let index := Z.land (index + 1) (sz - 1) in
        let iter := iter + 1 in
        if (iter <=? maxprobe) && negb (index =? orig)
        then insert_loop_ n' a val1 sz maxprobe orig index iter
        else Ret (false, a)
  end.

Definition smallintset_insert_ (a : jl_array_t) (hv val1 : Z) : res (bool * jl_array_t) :=
  let sz := jl_array_nrows a in
  if sz <=? 1 then Ret (false, a)
  else
    let iter := 0 in
    let index := h2index hv sz in
    let orig := index in
    let maxprobe := max_probe sz in
    insert_loop_ (S (Z.to_nat maxprobe)) a val1 sz maxprobe orig index iter.

(** *** smallintset_rehash *)

(** What [pcache] points to, and the arrays stored to it so far
    ([jl_atomic_store_release(pcache, newa)]), oldest first. *)
Record cache_ref : Type := CacheRef {
  pcache : jl_array_t;
  released : list jl_array_t
}.

(** First [for] loop: the largest slot value, starting from [np].
    [n] is the number of iterations left, [sz - i]. *)
Fixpoint rehash_np (n : nat) (a : jl_array_t) (i np : Z) : res Z :=
  match n with
  | O => Ret np
  | S n' =>
      val <- jl_intref a i;;
      rehash_np n' a (i + 1) (if val >? np then val else np)
  end.

(** Second [for] loop: the value of [i] when the loop is left, and [newa]. *)
Fixpoint rehash_fill (n : nat) (a : jl_array_t) (hash : smallintset_hash) (data : D)
    (i : Z) (newa : jl_array_t) : res (Z * jl_array_t) :=
  match n with
  | O => Ret (i, newa)
  | S n' =>
      val1 <- jl_intref a i;;
      if negb (val1 =? 0) then
        r <- smallintset_insert_ newa (hash (val1 - 1) data) val1;;
        let '(ok, newa') := r in
        if negb ok then Ret (i, newa')
        else rehash_fill n' a hash data (i + 1) newa'
      else rehash_fill n' a hash data (i + 1) newa
  end.

Fixpoint rehash_loop (fuel : nat) (a : jl_array_t) (hash : smallintset_hash) (data : D)
    (sz newsz np : Z) : res jl_array_t :=
  match fuel with
  | O => OutOfFuel
  | S fuel' =>
      newa <- jl_alloc_int_1d np newsz;;
      r <- rehash_fill (Z.to_nat sz) a hash data 0 newa;;
      let '(i, newa) := r in
      if i =? sz then Ret newa
      else rehash_loop fuel' a hash data sz (wrap (Z.shiftl newsz 1)) np
  end.

Definition smallintset_rehash (fuel : nat) (c : cache_ref) (hash : smallintset_hash)
    (data : D) (newsz np : Z) : res cache_ref :=
  let a := pcache c in
  let sz := jl_array_nrows a in
  np <- rehash_np (Z.to_nat sz) a 0 np;;
  newa <- rehash_loop fuel a hash data sz newsz np;;
  Ret (CacheRef newa (released c ++ [newa])).

(** *** jl_smallintset_insert *)

(** The capacity asked for when the table is full. *)
Definition grow_newsz (sz : Z) : Z :=
  if sz <? HT_N_INLINE then HT_N_INLINE
  else if (sz >=? Z.shiftl 1 19) || (sz <=? Z.shiftl 1 8) then wrap (Z.shiftl sz 1)
  else wrap (Z.shiftl sz 2).

Fixpoint insert_loop (rfuel fuel : nat) (c : cache_ref) (hash : smallintset_hash)
    (val : Z) (data : D) : res cache_ref :=
  match fuel with
  | O => OutOfFuel
  | S fuel' =>
      let a := pcache c in
      r <- smallintset_insert_ a (hash val data) (wrap (val + 1));;
      let '(ok, a') := r in
      let c := CacheRef a' (released c) in
      if ok then Ret c
      else
        let a := pcache c in
        let sz := jl_array_nrows a in
        let newsz := grow_newsz sz in
        c <- smallintset_rehash rfuel c hash data newsz 0;;
        insert_loop rfuel fuel' c hash val data
  end.

Definition jl_smallintset_insert (fuel : nat) (c : cache_ref) (hash : smallintset_hash)
    (val : Z) (data : D) : res cache_ref :=
  let a := pcache c in
  m <- jl_max_int a;;
  c <- (if wrap (val + 1) >? m
       then smallintset_rehash fuel c hash data (jl_array_nrows a) (wrap (val + 1))
       else Ret c);;
  insert_loop fuel fuel c hash val data.

End Code.

Arguments smallintset_eq : clear implicits.
Arguments smallintset_hash : clear implicits.

(** ** Specification-level definitions *)

Definition is_pow2 (sz : Z) : Prop := ∃ m, 0 ≤ m ∧ sz = 2 ^ m.

Definition cap_ok (sz : Z) : Prop := sz = 0 ∨ is_pow2 sz.

(** The capacity [sz] is [2 ^ m], or zero with [m = -1]. *)
Definition cap_at (sz m : Z) : Prop :=
  (sz = 0 ∧ m = -1) ∨ (0 ≤ m ≤ 62 ∧ sz = 2 ^ m).

Definition int_eltype (t : jl_eltype) : bool :=
  match t with
  | jl_uint8_type | jl_uint16_type | jl_uint32_type => true
  | _ => false
  end.

Definition width (t : jl_eltype) : Z :=
  match t with
  | jl_uint8_type => 8
  | jl_uint16_type => 16
  | jl_uint32_type => 32
  | _ => 0
  end.

Definition arr_ok (a : jl_array_t) : Prop :=
  int_eltype (jl_tparam0 a) = true ∨ jl_array_data a = [].

(** A table the code can hold: integer slots within the range of the
    element type, or the empty untyped table an index set starts with. *)
Definition wf_array (a : jl_array_t) : Prop :=
  (int_eltype (jl_tparam0 a) = true
   ∧ Forall (λ v, 0 ≤ v < 2 ^ width (jl_tparam0 a)) (jl_array_data a))
  ∨ (jl_tparam0 a = jl_any_type ∧ jl_array_data a = []).

(** The probe bound in the words of the specification. *)
Definition maxProbe (sz : Z) : Z := if decide (sz ≤ 1024) then 16 else sz / 64.

(** The slots a probe visits: it starts at [h mod sz], steps by one
    modulo [sz], visits at most [maxProbe sz + 1] slots and stops when
    it is back at the start, that is after [sz] slots. *)
Definition probe_len (sz : Z) : Z := Z.min (maxProbe sz + 1) sz.

Definition probe_positions (h sz : Z) : list Z :=
  (λ k, (h mod sz + k) mod sz) <$> seqZ 0 (probe_len sz).

(** The walk in the words of the specification: visit [p], step to
    [(p + 1) mod sz], stop when back at [start] or when [n] slots
    have been visited. *)
Fixpoint probe_from (n : nat) (sz start p : Z) : list Z :=
  match n with
  | O => []
  | S n' =>
      p :: (let p' := (p + 1) mod sz in
            if decide (p' = start) then [] else probe_from n' sz start p')
  end.

Definition probe_walk (h sz : Z) : list Z :=
  probe_from (Z.to_nat (maxProbe sz + 1)) sz (h mod sz) (h mod sz).

Section Spec.
Context {K D : Type}.

(** Lookup over the visited slots: NotFound ([-1]) on the first empty
    slot, [v - 1] on the first slot value [v] that [eq] accepts,
    NotFound when no slot is left. *)
Fixpoint scan_lookup (slots : list Z) (eq : smallintset_eq K D) (key : K) (data : D)
    (h : Z) (positions : list Z) : Z :=
  match positions with
  | [] => -1
  | p :: rest =>
      let v := slot slots p in
      if decide (v = 0) then -1
      else if eq (v - 1) key data h then v - 1
      else scan_lookup slots eq key data h rest
  end.

Definition lookup_spec (cache : jl_array_t) (eq : smallintset_eq K D) (key : K)
    (data : D) (h : Z) : Z :=
  let sz := jl_array_nrows cache in
  if decide (sz = 0) then -1
  else scan_lookup (jl_array_data cache) eq key data h (probe_walk h sz).

End Spec.

(** The first visited slot that is empty. *)
Fixpoint scan_empty (slots : list Z) (positions : list Z) : option Z :=
  match positions with
  | [] => None
  | p :: rest => if decide (slot slots p = 0) then Some p else scan_empty slots rest
  end.

(** Direct placement over the visited slots. *)
Definition place (a : jl_array_t) (positions : list Z) (val1 : Z) : res (bool * jl_array_t) :=
  match scan_empty (jl_array_data a) positions with
  | Some p => a' <- jl_intset_release a p val1;; Ret (true, a')
  | None => Ret (false, a)
  end.

(** The array after a store of [v] into slot [p]. *)
Definition store (a : jl_array_t) (p v : Z) : jl_array_t :=
  JlArray (jl_tparam0 a) (<[Z.to_nat p := v mod 2 ^ width (jl_tparam0 a)]> (jl_array_data a)).

(** Number of occupied slots. *)
Definition occupied (l : list Z) : nat := length (filter (λ v, v ≠ 0) l).

(** The occupied slot values, in slot order. *)
Definition entries (l : list Z) : list Z := filter (λ v, v ≠ 0) l.

(** The value [np] after the first loop of the rehash. *)
Definition max_slot (np : Z) (l : list Z) : Z := foldl Z.max np l.

(** The capacity of the attempt number [j]. *)
Fixpoint attempt_cap (newsz : Z) (j : nat) : Z :=
  match j with
  | O => newsz
  | S j' => attempt_cap (wrap (Z.shiftl newsz 1)) j'
  end.

Section SpecRehash.
Context {D : Type}.
Implicit Types (hash : smallintset_hash D) (data : D).

(** Reinsertion of the old slot values [vals], in increasing slot order:
    each non-zero value is placed with the hash of its decoded index;
    [None] when a placement fails. *)
Fixpoint reinsert (vals : list Z) hash data (newa : jl_array_t) : res (option jl_array_t) :=
  match vals with
  | [] => Ret (Some newa)
  | v :: rest =>
      if decide (v = 0) then reinsert rest hash data newa
      else
        r <- smallintset_insert_ newa (hash (v - 1) data) v;;
        let '(ok, newa') := r in
        if ok then reinsert rest hash data newa' else Ret None
  end.

(** One attempt of the rebuild: a fresh zeroed table of [cap] slots,
    then the reinsertion of the whole old table. *)
Definition build (assertions : bool) (a : jl_array_t) hash data (np cap : Z)
    : res (option jl_array_t) :=
  newa <- jl_alloc_int_1d assertions np cap;;
  reinsert (jl_array_data a) hash data newa.

End SpecRehash.

(** What the insertion loop keeps true of the current table. *)
Definition table_inv (assertions : bool) (a : jl_array_t) : Prop :=
  wf_array a ∧ int_eltype (jl_tparam0 a) = true
  ∧ (assertions = false ∨ Forall (λ v, v < 0x7FFFFFFF) (jl_array_data a))
  ∧ Z.of_nat (occupied (jl_array_data a)) ≤ 2 ^ 56.

(** A table is at the baseline capacity or above, or it has at most one
    slot and nothing in it. *)
Definition small_or_baseline (HT : Z) (a : jl_array_t) : Prop :=
  HT ≤ jl_array_nrows a ∨ (jl_array_nrows a ≤ 1 ∧ entries (jl_array_data a) = []).

(** [maxValue(width)] is [2 ^ width - 1]. *)
Definition maxValue (t : jl_eltype) : Z := 2 ^ width t - 1.

(** The narrowest of the 8-, 16- and 32-bit classes whose [maxValue] is
    at least [np]. *)
Definition narrowest_class (np : Z) : option jl_eltype :=
  find (λ t, bool_decide (np ≤ maxValue t)) [jl_uint8_type; jl_uint16_type; jl_uint32_type].

(** The narrowest class whose [maxValue] is strictly above [np]. *)
Definition strict_class (np : Z) : option jl_eltype :=
  find (λ t, bool_decide (np < maxValue t)) [jl_uint8_type; jl_uint16_type; jl_uint32_type].

(** The growth policy in the words of the specification. *)
Definition next_capacity (baseline sz : Z) : Z :=
  if decide (sz < baseline) then baseline
  else if decide (2 ^ 19 ≤ sz ∨ sz ≤ 2 ^ 8) then sz * 2
  else sz * 4.

(** ** Concrete index sets *)

(** A sequence of insertions, each on the index set the one before
    left. *)
Fixpoint insert_many {D : Type} (assertions : bool) (HT : Z) (fuel : nat) (c : cache_ref)
    (hash : smallintset_hash D) (data : D) (vals : list Z) : res cache_ref :=
  match vals with
  | [] => Ret c
  | val :: rest =>
      c' <- jl_smallintset_insert assertions HT fuel c hash val data;;
      insert_many assertions HT fuel c' hash data rest
  end.

(** The indices hash to themselves and a key matches the equal index. *)
Definition hash_id : smallintset_hash unit := λ i _, i.
Definition eq_id : smallintset_eq Z unit := λ i key _ _, i =? key.

(** Every index hashes to zero. *)
Definition hash_zero : smallintset_hash unit := λ _ _, 0.

(** The index set before its first insertion: the shared empty array of
    element type [Any]. *)
Definition empty_set : cache_ref := CacheRef (JlArray jl_any_type []) [].

(** An 8-bit table of four slots holding the indices 2, 4 and 6. *)
Definition three_of_four : cache_ref :=
  CacheRef (JlArray jl_uint8_type [3; 5; 7; 0]) [].

(** The 32-bit table of 32 slots that holds the indices 3 and 70000
    under [hash_id]. *)
Definition wide_table : cache_ref :=
  CacheRef (JlArray jl_uint32_type (<[3%nat := 4]> (<[16%nat := 70001]> (replicate 32 0)))) [].

(** An 8-bit table of 32 slots whose first 17 slots hold the indices
    0 to 16. *)
Definition full_window : cache_ref :=
  CacheRef (JlArray jl_uint8_type (seqZ 1 17 ++ replicate 15 0)) [].

(** The equality callback that accepts the index equal to the key. *)
Definition eq_key : smallintset_eq Z unit := λ i key _ _, bool_decide (i = key).

(** The table a rehash of [three_of_four] builds under [hash_id]. *)
Definition rebuilt_four : cache_ref :=
  CacheRef (JlArray jl_uint8_type [5; 0; 3; 7]) [JlArray jl_uint8_type [5; 0; 3; 7]].

(** ** Probe chains *)

(** The value [v] is in one of the visited slots [positions] and no
    visited slot before it is empty: a lookup walking [positions]
    reaches it. *)
Definition found_at (l : list Z) (positions : list Z) (v : Z) : Prop :=
  ∃ (k : nat) (p : Z),
    positions !! k = Some p ∧ slot l p = v
    ∧ ∀ (j : nat) (q : Z), (j < k)%nat → positions !! j = Some q → slot l q ≠ 0.

(** Every entry of the table is reached by the probe walk that starts
    at the hash of its decoded index. *)
Definition placed {D : Type} (hash : smallintset_hash D) (data : D) (a : jl_array_t) : Prop :=
  ∀ v, v ∈ entries (jl_array_data a) →
    found_at (jl_array_data a) (probe_walk (hash (v - 1) data) (jl_array_nrows a)) v.

(** The equality callback accepts the index stored as [v] and rejects
    the index of every other entry of [l]. *)
Definition matches_only {K D : Type} (eq : smallintset_eq K D) (key : K) (data : D)
    (hv : Z) (l : list Z) (v : Z) : Prop :=
  eq (v - 1) key data hv = true
  ∧ ∀ u, u ∈ entries l → u ≠ v → eq (u - 1) key data hv = false.

(** * Lemmas *)

(** ** Arithmetic of the probe sequence *)

Lemma land_mask (x m : Z) : 0 ≤ m → Z.land x (2 ^ m - 1) = x mod 2 ^ m.
Proof.
  intros Hm. rewrite <- Z.land_ones by done.
  by rewrite Z.ones_equiv, <- Z.sub_1_r.
Qed.

Lemma max_probe_spec (sz : Z) : max_probe sz = maxProbe sz.
Proof.
  unfold max_probe, maxProbe.
  destruct (Z.leb_spec sz 1024); case_decide; try lia.
  by rewrite Z.shiftr_div_pow2.
Qed.

Lemma mod_add_cases (o k sz : Z) :
  0 ≤ o < sz → 0 ≤ k < sz →
  (o + k) mod sz = if decide (o + k < sz) then o + k else o + k - sz.
Proof.
  intros Ho Hk. case_decide.
  - apply Z.mod_small. lia.
  - symmetry. apply (Z.mod_unique_pos _ _ 1); lia.
Qed.

Lemma probe_step (o k sz : Z) :
  0 ≤ o < sz → 0 ≤ k → ((o + k) mod sz + 1) mod sz = (o + (k + 1)) mod sz.
Proof.
  intros Ho Hk. rewrite Z.add_assoc.
  rewrite <- (Z.add_mod_idemp_l (o + k) 1) by lia. done.
Qed.

Lemma probe_back (o k sz : Z) :
  0 ≤ o < sz → 0 < k ≤ sz → (o + k) mod sz = o ↔ k = sz.
Proof.
  intros Ho Hk. split.
  - intros H. destruct (decide (k = sz)) as [|Hne]; [done|].
    rewrite mod_add_cases in H by lia. case_decide; lia.
  - intros ->. rewrite <- (Z.mul_1_l sz) at 1.
    rewrite Z.mod_add by lia. apply Z.mod_small. lia.
Qed.

Lemma probe_len_bounds (sz : Z) : 1 ≤ sz → 1 ≤ probe_len sz ≤ sz.
Proof.
  intros H. unfold probe_len, maxProbe. case_decide; [lia|].
  assert (0 ≤ sz / 64) by (apply Z.div_pos; lia). lia.
Qed.

(** ** The probe walk of the specification *)

Lemma probe_from_closed (n : nat) (sz o k : Z) :
  0 ≤ o < sz → 0 ≤ k < sz →
  probe_from n sz o ((o + k) mod sz)
  = (λ j, (o + j) mod sz) <$> seqZ k (Z.min (Z.of_nat n) (sz - k)).
Proof.
  intros Ho. revert k. induction n as [|n IH]; intros k Hk.
  { by rewrite seqZ_nil by lia. }
  cbn [probe_from]. rewrite seqZ_cons by lia. cbn [fmap list_fmap]. f_equal.
  rewrite probe_step by lia. case_decide as Hback.
  - apply probe_back in Hback; [|lia..]. by rewrite seqZ_nil by lia.
  - assert (k + 1 ≠ sz) by (intros ?; apply Hback, probe_back; lia).
    rewrite IH by lia. f_equal. f_equal; lia.
Qed.

Lemma maxProbe_nonneg (sz : Z) : 0 ≤ sz → 0 ≤ maxProbe sz.
Proof. intros H. unfold maxProbe. case_decide; [lia|]. apply Z.div_pos; lia. Qed.

Lemma probe_walk_positions (h sz : Z) : 1 ≤ sz → probe_walk h sz = probe_positions h sz.
Proof.
  intros Hsz. unfold probe_walk, probe_positions, probe_len.
  assert (0 ≤ h mod sz < sz) as Ho by (apply Z.mod_pos_bound; lia).
  pose proof (maxProbe_nonneg sz ltac:(lia)).
  pose proof (probe_from_closed (Z.to_nat (maxProbe sz + 1)) sz (h mod sz) 0 Ho) as Hc.
  rewrite Z.add_0_r, Z.mod_mod in Hc by lia. rewrite Hc by lia.
  f_equal. f_equal. lia.
Qed.

(** ** The probe loops *)

Lemma jl_intref_int (a : jl_array_t) (i : Z) :
  int_eltype (jl_tparam0 a) = true → jl_intref a i = Ret (slot (jl_array_data a) i).
Proof. unfold jl_intref. by destruct (jl_tparam0 a). Qed.

Lemma jl_intref_acquire_int (a : jl_array_t) (i : Z) :
  int_eltype (jl_tparam0 a) = true → jl_intref_acquire a i = Ret (slot (jl_array_data a) i).
Proof. unfold jl_intref_acquire. by destruct (jl_tparam0 a). Qed.

(** Whether the [do ... while] condition lets the probe go on after
    [iter] slots have been visited. *)
Lemma probe_continue (sz orig iter : Z) :
  is_pow2 sz → 0 ≤ orig < sz → 0 ≤ iter < probe_len sz →
  (iter + 1 <=? max_probe sz)
    && negb (Z.land ((orig + iter) mod sz + 1) (sz - 1) =? orig)
  = bool_decide (iter + 1 < probe_len sz)
  ∧ Z.land ((orig + iter) mod sz + 1) (sz - 1) = (orig + (iter + 1)) mod sz.
Proof.
  intros (m & Hm & ->) Ho Hi.
  rewrite land_mask, probe_step by lia. split; [|done].
  rewrite max_probe_spec. unfold probe_len in *.
  destruct (Z.leb_spec (iter + 1) (maxProbe (2 ^ m))) as [Hle|Hgt]; simpl.
  - destruct (Z.eqb_spec ((orig + (iter + 1)) mod 2 ^ m) orig) as [Heq|Hne]; simpl.
    + apply probe_back in Heq; [|lia|lia]. rewrite bool_decide_eq_false_2; [done|lia].
    + case_bool_decide; [done|].
      exfalso. apply Hne. apply probe_back; lia.
  - rewrite bool_decide_eq_false_2; [done|lia].
Qed.

Section Lookup.
Context {K D : Type} {assertions : bool}.
Implicit Types (eq : smallintset_eq K D) (key : K) (data : D).

Lemma lookup_loop_spec (n : nat) cache eq key data hv sz orig iter :
  int_eltype (jl_tparam0 cache) = true →
  is_pow2 sz → 0 ≤ orig < sz → 0 ≤ iter < probe_len sz →
  probe_len sz - iter ≤ Z.of_nat n →
  lookup_loop n cache eq key data hv sz (max_probe sz) orig ((orig + iter) mod sz) iter
  = Ret (scan_lookup (jl_array_data cache) eq key data hv
          ((λ k, (orig + k) mod sz) <$> seqZ iter (probe_len sz - iter))).
Proof.
  intros Hty Hsz Ho. revert iter.
  induction n as [|n IH]; intros iter Hi Hn; [lia|].
  rewrite seqZ_cons by lia. cbn [lookup_loop fmap list_fmap scan_lookup].
  rewrite jl_intref_acquire_int by done. cbn [bind].
  destruct (Z.eqb_spec (slot (jl_array_data cache) ((orig + iter) mod sz)) 0) as [Hz|Hnz];
    case_decide; try done.
  destruct (eq _ key data hv); [done|].
  destruct (probe_continue sz orig iter) as [-> ->]; try done.
  case_bool_decide as Hlt.
  - rewrite IH by lia.
    by replace (Z.succ iter) with (iter + 1) by lia;
       replace (Z.pred (probe_len sz - iter)) with (probe_len sz - (iter + 1)) by lia.
  - by rewrite seqZ_nil by lia.
Qed.

Lemma h2index_mod (hv sz : Z) : is_pow2 sz → h2index hv sz = hv mod sz.
Proof. intros (m & Hm & ->). by apply land_mask. Qed.

Lemma is_pow2_pos (sz : Z) : is_pow2 sz → 1 ≤ sz.
Proof. intros (m & Hm & ->). assert (0 < 2 ^ m) by (apply Z.pow_pos_nonneg; lia). lia. Qed.

Lemma lookup_refines cache eq key data hv :
  int_eltype (jl_tparam0 cache) = true →
  is_pow2 (jl_array_nrows cache) →
  jl_smallintset_lookup cache eq key data hv = Ret (lookup_spec cache eq key data hv).
Proof.
  intros Hty Hsz. pose proof (is_pow2_pos _ Hsz) as Hpos.
  unfold jl_smallintset_lookup, lookup_spec.
  destruct (Z.eqb_spec (jl_array_nrows cache) 0); [lia|].
  case_decide; [lia|].
  rewrite h2index_mod, probe_walk_positions by (done || lia).
  set (sz := jl_array_nrows cache) in *.
  assert (0 ≤ hv mod sz < sz) as Ho by (apply Z.mod_pos_bound; lia).
  pose proof (probe_len_bounds sz Hpos) as Hlen.
  pose proof (lookup_loop_spec (S (Z.to_nat (max_probe sz))) cache eq key data hv sz
                (hv mod sz) 0 Hty Hsz Ho) as Hloop.
  rewrite Z.add_0_r, Z.mod_mod, Z.sub_0_r in Hloop by lia.
  rewrite Hloop; [done|lia|].
  rewrite max_probe_spec. unfold probe_len, maxProbe in *.
  case_decide; [lia|]. assert (0 ≤ sz / 64) by (apply Z.div_pos; lia). lia.
Qed.

End Lookup.

Lemma insert_loop_spec (n : nat) a val1 sz orig iter :
  int_eltype (jl_tparam0 a) = true →
  is_pow2 sz → 0 ≤ orig < sz → 0 ≤ iter < probe_len sz →
  probe_len sz - iter ≤ Z.of_nat n →
  insert_loop_ n a val1 sz (max_probe sz) orig ((orig + iter) mod sz) iter
  = place a ((λ k, (orig + k) mod sz) <$> seqZ iter (probe_len sz - iter)) val1.
Proof.
  intros Hty Hsz Ho. revert iter.
  induction n as [|n IH]; intros iter Hi Hn; [lia|].
  unfold place. rewrite seqZ_cons by lia. cbn [insert_loop_ fmap list_fmap scan_empty].
  rewrite jl_intref_int by done. cbn [bind].
  destruct (Z.eqb_spec (slot (jl_array_data a) ((orig + iter) mod sz)) 0) as [Hz|Hnz];
    case_decide; try done.
  destruct (probe_continue sz orig iter) as [-> ->]; try done.
  case_bool_decide as Hlt.
  - rewrite IH by lia. unfold place.
    by replace (Z.succ iter) with (iter + 1) by lia;
       replace (Z.pred (probe_len sz - iter)) with (probe_len sz - (iter + 1)) by lia.
  - by rewrite seqZ_nil by lia.
Qed.

Lemma insert_refines a hv val1 :
  int_eltype (jl_tparam0 a) = true →
  is_pow2 (jl_array_nrows a) → 2 ≤ jl_array_nrows a →
  smallintset_insert_ a hv val1 = place a (probe_positions hv (jl_array_nrows a)) val1.
Proof.
  intros Hty Hsz Hpos.
  unfold smallintset_insert_.
  destruct (Z.leb_spec (jl_array_nrows a) 1); [lia|].
  rewrite h2index_mod by done.
  set (sz := jl_array_nrows a) in *.
  assert (0 ≤ hv mod sz < sz) as Ho by (apply Z.mod_pos_bound; lia).
  pose proof (probe_len_bounds sz ltac:(lia)) as Hlen.
  pose proof (insert_loop_spec (S (Z.to_nat (max_probe sz))) a val1 sz
                (hv mod sz) 0 Hty Hsz Ho) as Hloop.
  rewrite Z.add_0_r, Z.mod_mod, Z.sub_0_r in Hloop by lia.
  rewrite Hloop; [done|lia|].
  rewrite max_probe_spec. unfold probe_len, maxProbe in *.
  case_decide; [lia|]. assert (0 ≤ sz / 64) by (apply Z.div_pos; lia). lia.
Qed.

(** ** The probe loops do not run out of their bound *)

Section Total.
Context {K D : Type} {assertions : bool}.
Implicit Types (eq : smallintset_eq K D) (key : K) (data : D).

Lemma lookup_loop_fuel (n : nat) cache eq key data (hv sz maxprobe orig index iter : Z) :
  (0 < n)%nat → maxprobe - iter < Z.of_nat n →
  lookup_loop n cache eq key data hv sz maxprobe orig index iter ≠ OutOfFuel.
Proof.
  revert index iter. induction n as [|n IH]; intros index iter Hpos Hn; [lia|].
  cbn [lookup_loop]. unfold jl_intref_acquire.
  destruct (jl_tparam0 cache); cbn [bind]; try done.
  all: destruct (_ =? 0); [done|]; destruct (eq _ key data hv); [done|].
  all: destruct (Z.leb_spec (iter + 1) maxprobe); [|done].
  all: destruct (negb _); [|done]; apply IH; lia.
Qed.

Lemma lookup_total cache eq key data (hv : Z) :
  jl_smallintset_lookup cache eq key data hv ≠ OutOfFuel.
Proof.
  unfold jl_smallintset_lookup. destruct (_ =? 0); [done|].
  apply lookup_loop_fuel; lia.
Qed.

End Total.

Lemma insert_loop_fuel (n : nat) (a : jl_array_t) (val1 sz maxprobe orig index iter : Z) :
  (0 < n)%nat → maxprobe - iter < Z.of_nat n →
  insert_loop_ n a val1 sz maxprobe orig index iter ≠ OutOfFuel.
Proof.
  revert index iter. induction n as [|n IH]; intros index iter Hpos Hn; [lia|].
  cbn [insert_loop_]. unfold jl_intref, jl_intset_release.
  destruct (jl_tparam0 a); cbn [bind]; try done.
  all: destruct (_ =? 0); [done|].
  all: destruct (Z.leb_spec (iter + 1) maxprobe); [|done].
  all: destruct (negb _); [|done]; apply IH; lia.
Qed.

Lemma insert_total (a : jl_array_t) (hv val1 : Z) :
  smallintset_insert_ a hv val1 ≠ OutOfFuel.
Proof.
  unfold smallintset_insert_. destruct (_ <=? 1); [done|].
  apply insert_loop_fuel; lia.
Qed.

(** ** Counting occupied slots *)

Lemma occupied_insert (l : list Z) (i : nat) (v w : Z) :
  l !! i = Some v →
  (occupied (<[i:=w]> l) + (if decide (v = 0%Z) then 0 else 1)
   = occupied l + (if decide (w = 0%Z) then 0 else 1))%nat.
Proof.
  intros Hl. pose proof (lookup_lt_Some _ _ _ Hl) as Hlt.
  rewrite insert_take_drop by done.
  rewrite <- (take_drop_middle l i v Hl) at 3.
  unfold occupied. rewrite !filter_app, !filter_cons, !length_app.
  repeat case_decide; simpl; lia.
Qed.

Lemma scan_empty_None (l : list Z) (positions : list Z) :
  scan_empty l positions = None ↔ Forall (λ p, slot l p ≠ 0) positions.
Proof.
  induction positions as [|p rest IH]; simpl.
  - split; [constructor|done].
  - case_decide.
    + split; [done|]. by inversion 1.
    + rewrite IH. split; [by constructor|by inversion 1].
Qed.

Lemma scan_empty_Some (l : list Z) (positions : list Z) (p : Z) :
  scan_empty l positions = Some p → p ∈ positions ∧ slot l p = 0.
Proof.
  induction positions as [|q rest IH]; simpl; [done|].
  case_decide.
  - intros [= ->]. split; [constructor|done].
  - intros Hs. destruct (IH Hs). split; [by constructor|done].
Qed.

Lemma slot_lookup (l : list Z) (p : Z) :
  0 ≤ p < Z.of_nat (length l) → l !! Z.to_nat p = Some (slot l p).
Proof.
  intros Hp. unfold slot.
  destruct (lookup_lt_is_Some_2 l (Z.to_nat p)) as [v ->]; [lia|done].
Qed.

Lemma slot_insert_ne (l : list Z) (p q w : Z) :
  0 ≤ p → 0 ≤ q → p ≠ q → slot (<[Z.to_nat p := w]> l) q = slot l q.
Proof.
  intros Hp Hq Hne. unfold slot. rewrite list_lookup_insert_ne; [done|lia].
Qed.

(** Pigeonhole: a probe that finds no empty slot has seen as many
    occupied slots as it visited. *)
Lemma probe_full_occupied (positions : list Z) (l : list Z) :
  NoDup positions →
  Forall (λ p, 0 ≤ p < Z.of_nat (length l)) positions →
  scan_empty l positions = None →
  (length positions ≤ occupied l)%nat.
Proof.
  intros Hnd. revert l.
  induction Hnd as [|p rest Hnotin Hnd IH]; intros l Hin Hfull; simpl; [lia|].
  apply Forall_cons in Hin as [Hp Hin].
  apply scan_empty_None, Forall_cons in Hfull as [Hpz Hfull].
  pose proof (occupied_insert l (Z.to_nat p) (slot l p) 0 (slot_lookup l p Hp)) as Hocc.
  rewrite decide_False, decide_True in Hocc by done.
  specialize (IH (<[Z.to_nat p := 0]> l)).
  rewrite length_insert in IH.
  assert (length rest ≤ occupied (<[Z.to_nat p:=0%Z]> l))%nat; [|lia].
  apply IH; [done|]. apply scan_empty_None.
  rewrite Forall_forall in Hfull, Hin. apply Forall_forall. intros q Hq.
  rewrite slot_insert_ne; [by apply Hfull|lia|by apply Hin|].
  intros ->. done.
Qed.

Lemma probe_positions_NoDup (h sz : Z) : 1 ≤ sz → NoDup (probe_positions h sz).
Proof.
  intros Hsz. unfold probe_positions.
  pose proof (probe_len_bounds sz Hsz) as Hlen.
  assert (0 ≤ h mod sz < sz) as Ho by (apply Z.mod_pos_bound; lia).
  apply NoDup_fmap_2_strong; [|apply NoDup_seqZ].
  intros x y [Hx1 Hx2]%elem_of_seqZ [Hy1 Hy2]%elem_of_seqZ.
  rewrite !mod_add_cases by lia. repeat case_decide; lia.
Qed.

Lemma probe_positions_range (h sz : Z) :
  1 ≤ sz → Forall (λ p, 0 ≤ p < sz) (probe_positions h sz).
Proof.
  intros Hsz. unfold probe_positions. apply Forall_fmap, Forall_forall.
  intros x _. simpl. apply Z.mod_pos_bound. lia.
Qed.

Lemma probe_positions_length (h sz : Z) :
  length (probe_positions h sz) = Z.to_nat (probe_len sz).
Proof. unfold probe_positions. by rewrite length_fmap, length_seqZ. Qed.

(** ** Results of the direct placement *)

Lemma jl_intset_release_int (a : jl_array_t) (p v : Z) :
  int_eltype (jl_tparam0 a) = true → jl_intset_release a p v = Ret (store a p v).
Proof. unfold jl_intset_release, store. by destruct (jl_tparam0 a). Qed.

Lemma insert_small (a : jl_array_t) (hv val1 : Z) :
  jl_array_nrows a ≤ 1 → smallintset_insert_ a hv val1 = Ret (false, a).
Proof.
  intros H. unfold smallintset_insert_.
  by destruct (Z.leb_spec (jl_array_nrows a) 1); [|lia].
Qed.

Lemma insert_cases (a : jl_array_t) (hv val1 : Z) :
  int_eltype (jl_tparam0 a) = true → cap_ok (jl_array_nrows a) →
  (smallintset_insert_ a hv val1 = Ret (false, a)
   ∧ (jl_array_nrows a ≤ 1
      ∨ (Z.to_nat (probe_len (jl_array_nrows a)) ≤ occupied (jl_array_data a))%nat))
  ∨ (∃ p, 0 ≤ p < jl_array_nrows a ∧ 2 ≤ jl_array_nrows a
          ∧ slot (jl_array_data a) p = 0
          ∧ smallintset_insert_ a hv val1 = Ret (true, store a p val1)).
Proof.
  intros Hty Hcap.
  destruct (decide (jl_array_nrows a ≤ 1)) as [Hs|Hs].
  { left. split; [by apply insert_small|by left]. }
  destruct Hcap as [?|Hp2]; [lia|].
  rewrite insert_refines by (done || lia). unfold place.
  pose proof (probe_positions_range hv (jl_array_nrows a) ltac:(lia)) as Hrange.
  destruct (scan_empty _ _) as [p|] eqn:Hscan.
  - right. exists p. apply scan_empty_Some in Hscan as [Hin Hz].
    rewrite Forall_forall in Hrange. specialize (Hrange p Hin).
    rewrite jl_intset_release_int by done. simpl. repeat split; (done || lia).
  - left. split; [done|right].
    rewrite <- (probe_positions_length hv).
    apply probe_full_occupied; [apply probe_positions_NoDup; lia|done..].
Qed.

(** ** Rehash *)

Section Rehash.
Context {D : Type} {assertions : bool}.
Implicit Types (hash : smallintset_hash D) (data : D).

Lemma slot_drop (l : list Z) (i : Z) (v : Z) (rest : list Z) :
  0 ≤ i → drop (Z.to_nat i) l = v :: rest →
  slot l i = v ∧ drop (Z.to_nat (i + 1)) l = rest.
Proof.
  intros Hi Hd. unfold slot.
  assert (l !! Z.to_nat i = Some v) as Hl.
  { rewrite <- (Nat.add_0_r (Z.to_nat i)), <- lookup_drop, Hd. done. }
  rewrite Hl. split; [done|].
  replace (Z.to_nat (i + 1)) with (S (Z.to_nat i)) by lia.
  by rewrite (drop_S _ _ _ Hl) in Hd; injection Hd.
Qed.

Lemma rehash_fill_reinsert (n : nat) a hash data (i : Z) newa :
  arr_ok a → 0 ≤ i → Z.of_nat n + i = jl_array_nrows a →
  match reinsert (drop (Z.to_nat i) (jl_array_data a)) hash data newa with
  | Ret (Some newa') => rehash_fill n a hash data i newa = Ret (jl_array_nrows a, newa')
  | Ret None => ∃ j newa', rehash_fill n a hash data i newa = Ret (j, newa')
                           ∧ j < jl_array_nrows a
  | Abort => rehash_fill n a hash data i newa = Abort
  | OutOfFuel => rehash_fill n a hash data i newa = OutOfFuel
  end.
Proof.
  intros Hok. revert i newa.
  induction n as [|n IH]; intros i newa Hi Hn.
  - rewrite drop_ge by (unfold jl_array_nrows in Hn; lia).
    simpl. f_equal. f_equal. lia.
  - destruct (drop (Z.to_nat i) (jl_array_data a)) as [|v rest] eqn:Hd.
    { apply (f_equal length) in Hd. rewrite length_drop in Hd.
      unfold jl_array_nrows in Hn. simpl in Hd. lia. }
    destruct Hok as [Hty|Hnil]; [|by rewrite Hnil, drop_nil in Hd].
    destruct (slot_drop _ _ _ _ Hi Hd) as [Hv Hrest].
    cbn [rehash_fill reinsert]. rewrite jl_intref_int by done. cbn [bind]. rewrite Hv.
    specialize (IH (i + 1)). rewrite Hrest in IH.
    destruct (Z.eqb_spec v 0); case_decide; try done; cbn [negb].
    + apply IH; lia.
    + destruct (smallintset_insert_ newa (hash (v - 1) data) v) as [[ok newa']| |];
        cbn [bind]; [|done..].
      destruct ok; cbn [negb].
      * apply IH; lia.
      * exists i, newa'. split; [done|lia].
Qed.

Lemma rehash_loop_step (fuel : nat) a hash data (newsz np : Z) :
  arr_ok a →
  rehash_loop assertions (S fuel) a hash data (jl_array_nrows a) newsz np
  = (r <- build assertions a hash data np newsz;;
     match r with
     | Some newa => Ret newa
     | None =>
         rehash_loop assertions fuel a hash data (jl_array_nrows a)
           (wrap (Z.shiftl newsz 1)) np
     end).
Proof.
  intros Hok. cbn [rehash_loop]. unfold build.
  destruct (jl_alloc_int_1d assertions np newsz) as [newa| |]; cbn [bind]; [|done..].
  pose proof (rehash_fill_reinsert (Z.to_nat (jl_array_nrows a)) a hash data 0 newa Hok) as H.
  rewrite drop_0 in H.
  destruct (reinsert _ _ _ _) as [[newa'|]| |]; cbn [bind].
  - rewrite H by (unfold jl_array_nrows; lia). cbn [bind].
    by rewrite Z.eqb_refl.
  - destruct H as (j & newa' & -> & Hj); [unfold jl_array_nrows; lia..|].
    cbn [bind]. by destruct (Z.eqb_spec j (jl_array_nrows a)); [lia|].
  - by rewrite H by (unfold jl_array_nrows; lia).
  - by rewrite H by (unfold jl_array_nrows; lia).
Qed.

End Rehash.

Lemma entries_insert (l : list Z) (i : nat) (w : Z) :
  l !! i = Some 0 → w ≠ 0 → entries (<[i:=w]> l) ≡ₚ w :: entries l.
Proof.
  intros Hl Hw. pose proof (lookup_lt_Some _ _ _ Hl) as Hlt.
  rewrite insert_take_drop by done.
  rewrite <- (take_drop_middle l i 0 Hl) at 3.
  unfold entries. rewrite !filter_app, !filter_cons.
  rewrite decide_True, decide_False by (done || lia).
  by rewrite Permutation_middle.
Qed.

Lemma entries_replicate (n : nat) : entries (replicate n 0) = [].
Proof. induction n as [|n IH]; [done|]. simpl. unfold entries in *. by rewrite filter_cons_False by lia. Qed.

Lemma store_props (a : jl_array_t) (p v : Z) :
  0 ≤ p < jl_array_nrows a → slot (jl_array_data a) p = 0 →
  0 < v < 2 ^ width (jl_tparam0 a) →
  jl_tparam0 (store a p v) = jl_tparam0 a
  ∧ jl_array_nrows (store a p v) = jl_array_nrows a
  ∧ entries (jl_array_data (store a p v)) ≡ₚ v :: entries (jl_array_data a).
Proof.
  intros Hp Hz Hv. unfold store, jl_array_nrows in *. simpl.
  rewrite length_insert. split; [done|split; [done|]].
  rewrite Z.mod_small by lia.
  apply entries_insert; [|lia]. rewrite <- Hz. by apply slot_lookup.
Qed.

Lemma alloc_props {assertions : bool} (np cap : Z) (newa : jl_array_t) :
  jl_alloc_int_1d assertions np cap = Ret newa →
  int_eltype (jl_tparam0 newa) = true
  ∧ jl_array_data newa = replicate (Z.to_nat cap) 0
  ∧ (np < 2 ^ width (jl_tparam0 newa) - 1 ∨ 0x7FFFFFFF ≤ np).
Proof.
  unfold jl_alloc_int_1d.
  repeat (match goal with |- context [?x <? ?y] => destruct (Z.ltb_spec x y) end);
    destruct assertions; intros [= <-]; simpl; repeat split; lia.
Qed.

Lemma alloc_ret {assertions : bool} (np cap : Z) :
  assertions = false ∨ np < 0x7FFFFFFF →
  ∃ newa, jl_alloc_int_1d assertions np cap = Ret newa.
Proof.
  intros H. unfold jl_alloc_int_1d.
  repeat (match goal with |- context [?x <? ?y] => destruct (Z.ltb_spec x y) end);
    destruct assertions; simpl; eauto; destruct H; (done || lia).
Qed.

(** The allocation is refused where the assertion is checked and fails. *)
Lemma alloc_abort_iff {assertions : bool} (np len : Z) :
  jl_alloc_int_1d assertions np len = Abort ↔ assertions = true ∧ 0x7FFFFFFF ≤ np.
Proof.
  unfold jl_alloc_int_1d.
  repeat (match goal with |- context [?x <? ?y] => destruct (Z.ltb_spec x y) end);
    destruct assertions; simpl; (split; [intros [=]; lia|intros [[=] ?]; lia || done])
    || (split; [done || (intros _; split; [done|lia])|done]).
Qed.

(** The slots of the new array hold the values of the old one: they are
    at most [np] where a narrow class is chosen, and 32-bit values
    otherwise. *)
Lemma alloc_fits {assertions : bool} (a newa : jl_array_t) (np cap : Z) :
  wf_array a → Forall (λ v, v ≤ np) (jl_array_data a) →
  jl_alloc_int_1d assertions np cap = Ret newa →
  Forall (λ v, 0 ≤ v < 2 ^ width (jl_tparam0 newa)) (jl_array_data a).
Proof.
  intros [[Hty Hr]|[_ ->]] Hle; [|by constructor].
  unfold jl_alloc_int_1d.
  repeat (match goal with |- context [?x <? ?y] => destruct (Z.ltb_spec x y) end);
    destruct assertions; intros [= <-]; simpl;
    rewrite Forall_forall in Hr, Hle; apply Forall_forall; intros v Hv;
    specialize (Hr v Hv); specialize (Hle v Hv); simpl in *;
    destruct (jl_tparam0 a); simpl in *; (done || lia).
Qed.

Section Reinsert.
Context {D : Type} {assertions : bool}.
Implicit Types (hash : smallintset_hash D) (data : D).

Lemma reinsert_props (vals : list Z) hash data (newa : jl_array_t) :
  int_eltype (jl_tparam0 newa) = true → cap_ok (jl_array_nrows newa) →
  Forall (λ v, 0 ≤ v < 2 ^ width (jl_tparam0 newa)) vals →
  ∃ r, reinsert vals hash data newa = Ret r ∧
    match r with
    | Some newa' =>
        jl_tparam0 newa' = jl_tparam0 newa
        ∧ jl_array_nrows newa' = jl_array_nrows newa
        ∧ entries (jl_array_data newa') ≡ₚ entries vals ++ entries (jl_array_data newa)
        ∧ (entries vals = [] ∨ 2 ≤ jl_array_nrows newa)
    | None =>
        entries vals ≠ []
        ∧ (jl_array_nrows newa ≤ 1
           ∨ (Z.to_nat (probe_len (jl_array_nrows newa))
              < occupied (jl_array_data newa) + occupied vals)%nat)
    end.
Proof.
  intros Hty Hcap Hvals. revert newa Hty Hcap Hvals.
  induction vals as [|v rest IH]; intros newa Hty Hcap Hvals.
  { exists (Some newa). repeat split; [done|by left]. }
  apply Forall_cons in Hvals as [Hv Hvals]. cbn [reinsert].
  case_decide as Hz.
  { destruct (IH newa) as (r & -> & Hr); [done..|]. exists r. split; [done|].
    unfold occupied, entries in *. by rewrite filter_cons_False by lia. }
  assert (entries (v :: rest) = v :: entries rest) as Hent
    by (unfold entries; by rewrite filter_cons_True).
  assert (occupied (v :: rest) = S (occupied rest)) as Hocc
    by (unfold occupied; fold (entries (v :: rest)); by rewrite Hent).
  destruct (insert_cases newa (hash (v - 1) data) v Hty Hcap)
    as [[-> Hfull]|(p & Hp & Hsz & Hslot & ->)]; cbn [bind].
  - exists None. split; [done|]. rewrite Hent, Hocc. split; [done|].
    destruct Hfull; [by left|right; lia].
  - destruct (store_props newa p v) as (Hty' & Hn' & Hperm); [done|done|lia|].
    destruct (IH (store newa p v)) as (r & -> & Hr).
    { by rewrite Hty'. } { by rewrite Hn'. } { by rewrite Hty'. }
    exists r. split; [done|]. destruct r as [newa'|].
    + destruct Hr as (-> & -> & Hperm' & _). repeat split; [done..| |by right; lia].
      rewrite Hperm', Hperm, Hent. simpl. symmetry. apply Permutation_middle.
    + destruct Hr as [Hne Hr]. rewrite Hent, Hocc, Hn' in *. split; [done|].
      destruct Hr as [?|Hr]; [by left|right].
      unfold occupied in *. fold (entries (jl_array_data (store newa p v))) in Hr.
      rewrite Hperm in Hr. simpl in Hr. fold (entries (jl_array_data newa)). lia.
Qed.

End Reinsert.

Lemma wf_arr_ok (a : jl_array_t) : wf_array a → arr_ok a.
Proof. intros [[? _]|[_ ?]]; [by left|by right]. Qed.

Lemma wf_nonneg (a : jl_array_t) : wf_array a → Forall (λ v, 0 ≤ v) (jl_array_data a).
Proof.
  intros [[_ H]|[_ ->]]; [|constructor].
  eapply Forall_impl; [exact H|]. simpl. lia.
Qed.

Lemma max_slot_le (l : list Z) (np : Z) : np ≤ max_slot np l ∧ Forall (λ v, v ≤ max_slot np l) l.
Proof.
  revert np. induction l as [|v l IH]; intros np; simpl.
  - split; [lia|constructor].
  - destruct (IH (Z.max np v)) as [H1 H2]. unfold max_slot in *. simpl.
    split; [lia|]. constructor; [lia|done].
Qed.

Lemma max_slot_lt (l : list Z) (np b : Z) :
  np < b → Forall (λ v, v < b) l → max_slot np l < b.
Proof.
  revert np. induction l as [|v l IH]; intros np Hnp Hl; [done|].
  apply Forall_cons in Hl as [Hv Hl]. unfold max_slot in *. simpl. apply IH; [lia|done].
Qed.

Lemma rehash_np_spec (n : nat) (a : jl_array_t) (i np : Z) :
  arr_ok a → 0 ≤ i → Z.of_nat n + i = jl_array_nrows a →
  rehash_np n a i np = Ret (max_slot np (drop (Z.to_nat i) (jl_array_data a))).
Proof.
  intros Hok. revert i np.
  induction n as [|n IH]; intros i np Hi Hn.
  - by rewrite drop_ge by (unfold jl_array_nrows in Hn; lia).
  - destruct (drop (Z.to_nat i) (jl_array_data a)) as [|v rest] eqn:Hd.
    { apply (f_equal length) in Hd. rewrite length_drop in Hd.
      unfold jl_array_nrows in Hn. simpl in Hd. lia. }
    destruct Hok as [Hty|Hnil]; [|by rewrite Hnil, drop_nil in Hd].
    destruct (slot_drop _ _ _ _ Hi Hd) as [Hv Hrest].
    cbn [rehash_np]. rewrite jl_intref_int by done. cbn [bind].
    rewrite IH by (by left || lia). rewrite Hrest, Hv. unfold max_slot. simpl.
    do 2 f_equal. destruct (Z.gtb_spec v np); lia.
Qed.

(** ** Capacities of the rebuild attempts *)

Lemma double_pow2 (m : Z) : 0 ≤ m < 63 → wrap (Z.shiftl (2 ^ m) 1) = 2 ^ (m + 1).
Proof.
  intros Hm. unfold wrap. rewrite Z.shiftl_mul_pow2 by lia.
  rewrite <- Z.pow_add_r by lia. apply Z.mod_small.
  split; [apply Z.pow_nonneg; lia|apply Z.pow_lt_mono_r; lia].
Qed.

Lemma cap_ok_double (sz : Z) : cap_ok sz → cap_ok (wrap (Z.shiftl sz 1)).
Proof.
  intros [->|(m & Hm & ->)]; [by left|].
  destruct (decide (m < 63)).
  - right. exists (m + 1). split; [lia|]. apply double_pow2. lia.
  - left. unfold wrap. rewrite Z.shiftl_mul_pow2 by lia.
    rewrite <- Z.pow_add_r by lia.
    replace (m + 1) with ((m + 1 - 64) + 64) by lia.
    rewrite Z.pow_add_r by lia. apply Z.mod_mul. lia.
Qed.

Lemma cap_ok_attempt (sz : Z) (j : nat) : cap_ok sz → cap_ok (attempt_cap sz j).
Proof.
  revert sz. induction j as [|j IH]; intros sz H; [done|].
  simpl. by apply IH, cap_ok_double.
Qed.

Lemma cap_ok_nonneg (sz : Z) : cap_ok sz → 0 ≤ sz.
Proof. intros [->|H%is_pow2_pos]; lia. Qed.

Lemma Forall_entries (P : Z → Prop) (l : list Z) :
  P 0 → Forall P (entries l) → Forall P l.
Proof.
  intros H0 H. rewrite Forall_forall in H. apply Forall_forall. intros v Hv.
  destruct (decide (v = 0)) as [->|Hne]; [done|].
  apply H. unfold entries. by apply list_elem_of_filter.
Qed.

Lemma entries_Forall (P : Z → Prop) (l : list Z) : Forall P l → Forall P (entries l).
Proof.
  intros H. rewrite Forall_forall in H. apply Forall_forall. intros v Hv.
  apply H. unfold entries in Hv. by apply list_elem_of_filter in Hv as [_ ?].
Qed.

Section Build.
Context {D : Type} {assertions : bool}.
Implicit Types (hash : smallintset_hash D) (data : D).

Lemma build_props (a : jl_array_t) hash data (np cap : Z) :
  wf_array a → cap_ok cap → Forall (λ v, v ≤ np) (jl_array_data a) →
  (build assertions a hash data np cap = Abort ∧ 0x7FFFFFFF ≤ np ∧ assertions = true)
  ∨ ((assertions = false ∨ np < 0x7FFFFFFF)
     ∧ ∃ r, build assertions a hash data np cap = Ret r ∧
      match r with
      | Some newa =>
          wf_array newa ∧ int_eltype (jl_tparam0 newa) = true
          ∧ jl_array_nrows newa = cap
          ∧ entries (jl_array_data newa) ≡ₚ entries (jl_array_data a)
          ∧ (np < 2 ^ width (jl_tparam0 newa) - 1 ∨ 0x7FFFFFFF ≤ np)
          ∧ (entries (jl_array_data a) = [] ∨ 2 ≤ cap)
      | None =>
          entries (jl_array_data a) ≠ []
          ∧ (cap ≤ 1 ∨ (Z.to_nat (probe_len cap) < occupied (jl_array_data a))%nat)
      end).
Proof.
  intros Hwf Hcap Hle. unfold build.
  destruct (decide (assertions = true ∧ 0x7FFFFFFF ≤ np)) as [Hno|Hnp].
  { left. rewrite (proj2 (alloc_abort_iff np cap) Hno). split; [done|by destruct Hno]. }
  assert (assertions = false ∨ np < 0x7FFFFFFF) as Hyes.
  { destruct assertions; [right|by left].
    destruct (decide (np < 0x7FFFFFFF)); [done|]. destruct Hnp. split; [done|lia]. }
  right. split; [done|].
  destruct (alloc_ret np cap Hyes) as [newa0 Halloc]. rewrite Halloc. cbn [bind].
  destruct (alloc_props _ _ _ Halloc) as (Hty0 & Hdata0 & Hw0).
  assert (jl_array_nrows newa0 = cap) as Hn0.
  { unfold jl_array_nrows. rewrite Hdata0, length_replicate.
    pose proof (cap_ok_nonneg _ Hcap). lia. }
  pose proof (alloc_fits a newa0 np cap Hwf Hle Halloc) as Hfit.
  destruct (reinsert_props (jl_array_data a) hash data newa0) as (r & -> & Hr);
    [done|by rewrite Hn0|done|].
  exists r. split; [done|]. destruct r as [newa|].
  - destruct Hr as (Hty & Hn & Hperm & Hcap2).
    rewrite Hdata0, entries_replicate, app_nil_r in Hperm.
    rewrite Hty, Hn, Hn0. rewrite Hn0 in Hcap2. repeat split; [|done..].
    left. split; [by rewrite Hty|]. rewrite Hty.
    apply Forall_entries.
    { split; [lia|]. apply Z.pow_pos_nonneg; [lia|]. by destruct (jl_tparam0 newa0). }
    rewrite Hperm. by apply entries_Forall.
  - rewrite Hn0, Hdata0 in Hr. unfold occupied in Hr at 1.
    fold (entries (replicate (Z.to_nat cap) 0)) in Hr.
    by rewrite entries_replicate in Hr.
Qed.

Lemma rehash_loop_sound (fuel : nat) (a : jl_array_t) hash data (newsz np : Z)
    (newa : jl_array_t) :
  arr_ok a →
  rehash_loop assertions fuel a hash data (jl_array_nrows a) newsz np = Ret newa →
  ∃ k, (k < fuel)%nat
       ∧ (∀ j, (j < k)%nat → build assertions a hash data np (attempt_cap newsz j) = Ret None)
       ∧ build assertions a hash data np (attempt_cap newsz k) = Ret (Some newa).
Proof.
  intros Hok. revert newsz.
  induction fuel as [|fuel IH]; intros newsz Hrun; [done|].
  rewrite rehash_loop_step in Hrun by done.
  destruct (build assertions a hash data np newsz) as [[newa'|]| |] eqn:Hb; cbn [bind] in Hrun;
    try done.
  - injection Hrun as ->. exists O. split; [lia|]. split; [lia|done].
  - destruct (IH _ Hrun) as (k & Hk & Hfail & Hbuild).
    exists (S k). split; [lia|]. split; [|done].
    intros [|j] Hj; [done|]. simpl. apply Hfail. lia.
Qed.

End Build.

(** ** Termination of the rebuild *)

Lemma probe_len_top : probe_len (2 ^ 62) = 2 ^ 56 + 1.
Proof. by vm_compute. Qed.

Section RehashTermination.
Context {D : Type} {assertions : bool}.
Implicit Types (hash : smallintset_hash D) (data : D).

Lemma rehash_loop_terminates (fuel : nat) (a : jl_array_t) hash data (m np : Z) :
  wf_array a → Forall (λ v, v ≤ np) (jl_array_data a) →
  assertions = false ∨ np < 0x7FFFFFFF →
  0 ≤ m ≤ 62 → Z.of_nat (occupied (jl_array_data a)) ≤ 2 ^ 56 →
  62 - m < Z.of_nat fuel →
  ∃ newa m',
    rehash_loop assertions fuel a hash data (jl_array_nrows a) (2 ^ m) np = Ret newa
    ∧ m ≤ m' ≤ 62 ∧ jl_array_nrows newa = 2 ^ m'
    ∧ wf_array newa ∧ int_eltype (jl_tparam0 newa) = true
    ∧ entries (jl_array_data newa) ≡ₚ entries (jl_array_data a)
    ∧ (np < 2 ^ width (jl_tparam0 newa) - 1 ∨ 0x7FFFFFFF ≤ np).
Proof.
  intros Hwf Hle Hnp Hm Hocc. revert m Hm.
  induction fuel as [|fuel IH]; intros m Hm Hfuel; [lia|].
  rewrite rehash_loop_step by by apply wf_arr_ok.
  destruct (build_props (assertions:=assertions) a hash data np (2 ^ m) Hwf)
    as [(_ & ? & ?)|(_ & r & -> & Hr)];
    [right; exists m; split; [lia|done]|done|intuition (congruence || lia)|].
  destruct r as [newa|]; cbn [bind].
  - destruct Hr as (? & ? & ? & ? & ? & _). exists newa, m. repeat split; (done || lia).
  - destruct Hr as [_ Hr].
    assert (m < 62) as Hlt.
    { destruct (decide (m = 62)) as [->|]; [|lia].
      rewrite probe_len_top in Hr. lia. }
    rewrite double_pow2 by lia.
    destruct (IH (m + 1)) as (newa & m' & ? & ? & ?); [lia..|].
    exists newa, m'. repeat split; (tauto || lia).
Qed.

Lemma rehash_loop_empty (fuel : nat) (a : jl_array_t) hash data (newsz np : Z) :
  wf_array a → Forall (λ v, v ≤ np) (jl_array_data a) →
  assertions = false ∨ np < 0x7FFFFFFF →
  cap_ok newsz → entries (jl_array_data a) = [] →
  ∃ newa,
    rehash_loop assertions (S fuel) a hash data (jl_array_nrows a) newsz np = Ret newa
    ∧ jl_array_nrows newa = newsz
    ∧ wf_array newa ∧ int_eltype (jl_tparam0 newa) = true
    ∧ entries (jl_array_data newa) = []
    ∧ (np < 2 ^ width (jl_tparam0 newa) - 1 ∨ 0x7FFFFFFF ≤ np).
Proof.
  intros Hwf Hle Hnp Hcap Hent.
  rewrite rehash_loop_step by by apply wf_arr_ok.
  destruct (build_props (assertions:=assertions) a hash data np newsz Hwf)
    as [(_ & ? & ?)|(_ & r & -> & Hr)];
    [done|done|intuition (congruence || lia)|].
  destruct r as [newa|]; cbn [bind]; [|by destruct Hr].
  destruct Hr as (? & ? & ? & Hperm & ? & _). exists newa.
  rewrite Hent in Hperm. apply Permutation_nil_r in Hperm. by repeat split.
Qed.

End RehashTermination.

(** ** Termination of the insertion *)

Lemma quad_pow2 (m : Z) : 0 ≤ m < 62 → wrap (Z.shiftl (2 ^ m) 2) = 2 ^ (m + 2).
Proof.
  intros Hm. unfold wrap. rewrite Z.shiftl_mul_pow2 by lia.
  rewrite <- Z.pow_add_r by lia. apply Z.mod_small.
  split; [apply Z.pow_nonneg; lia|apply Z.pow_lt_mono_r; lia].
Qed.

Lemma grow_pow2 (HT h sz m : Z) :
  HT = 2 ^ h → 1 ≤ h ≤ 62 → cap_at sz m → m ≤ 61 →
  ∃ m', grow_newsz HT sz = 2 ^ m' ∧ m < m' ≤ 62 ∧ h ≤ m'.
Proof.
  intros -> Hh Hcap Hm. unfold grow_newsz.
  assert (0 < 2 ^ h) by (apply Z.pow_pos_nonneg; lia).
  destruct (Z.ltb_spec sz (2 ^ h)) as [Hlt|Hge].
  { exists h. split; [done|]. split; [|lia].
    destruct Hcap as [[-> ->]|[Hm' ->]]; [lia|].
    apply Z.pow_lt_mono_r_iff in Hlt; lia. }
  destruct Hcap as [[-> ->]|[Hm' ->]]; [lia|].
  assert (h ≤ m) by (apply Z.pow_le_mono_r_iff in Hge; lia).
  change (Z.shiftl 1 19) with (2 ^ 19). change (Z.shiftl 1 8) with (2 ^ 8).
  destruct (Z.geb_spec (2 ^ m) (2 ^ 19)) as [H19|H19]; simpl.
  { exists (m + 1). rewrite double_pow2 by lia. split; [done|lia]. }
  destruct (Z.leb_spec (2 ^ m) (2 ^ 8)); simpl.
  { exists (m + 1). rewrite double_pow2 by lia. split; [done|lia]. }
  assert (m < 19) by (apply Z.pow_lt_mono_r_iff in H19; lia).
  exists (m + 2). rewrite quad_pow2 by lia. split; [done|lia].
Qed.

Section InsertTermination.
Context {D : Type} {assertions : bool}.
Implicit Types (hash : smallintset_hash D) (data : D).

Lemma rehash_terminates (fuel : nat) (c : cache_ref) hash data (m np : Z) :
  table_inv assertions (pcache c) ∨ (wf_array (pcache c) ∧ jl_array_data (pcache c) = []) →
  assertions = false ∨ np < 0x7FFFFFFF → 0 ≤ m ≤ 62 → 62 - m < Z.of_nat fuel →
  ∃ c' m',
    smallintset_rehash assertions fuel c hash data (2 ^ m) np = Ret c'
    ∧ m ≤ m' ≤ 62 ∧ jl_array_nrows (pcache c') = 2 ^ m'
    ∧ table_inv assertions (pcache c')
    ∧ entries (jl_array_data (pcache c')) ≡ₚ entries (jl_array_data (pcache c))
    ∧ released c' = released c ++ [pcache c'].
Proof.
  intros Hinv Hnp Hm Hfuel.
  assert (wf_array (pcache c)
          ∧ (assertions = false ∨ Forall (λ v, v < 0x7FFFFFFF) (jl_array_data (pcache c)))
          ∧ Z.of_nat (occupied (jl_array_data (pcache c))) ≤ 2 ^ 56) as (Hwf & Hdom & Hocc).
  { destruct Hinv as [(? & _ & ? & ?)|[? ->]]; [done|].
    split; [done|]. split; [right; constructor|]. by vm_compute. }
  unfold smallintset_rehash.
  rewrite rehash_np_spec; [|by apply wf_arr_ok|lia|unfold jl_array_nrows; lia].
  rewrite drop_0. cbn [bind].
  set (np' := max_slot np (jl_array_data (pcache c))).
  pose proof (max_slot_le (jl_array_data (pcache c)) np) as [Hnp' Hle]. fold np' in Hnp', Hle.
  assert (assertions = false ∨ np' < 0x7FFFFFFF) as Hlt.
  { destruct Hnp as [?|Hnp]; [by left|]. destruct Hdom as [?|Hdom]; [by left|].
    right. by apply max_slot_lt. }
  destruct (rehash_loop_terminates (assertions:=assertions) fuel (pcache c) hash data m np')
    as (newa & m' & -> & Hm' & Hn & Hwf' & Hty' & Hperm & Hw); [done..|].
  cbn [bind]. eexists _, m'. split; [done|]. simpl.
  assert (table_inv assertions newa) as Hinv'.
  { split; [done|]. split; [done|]. split.
    - destruct Hdom as [?|Hdom]; [by left|right].
      apply Forall_entries; [lia|]. rewrite Hperm. by apply entries_Forall.
    - unfold occupied in *. fold (entries (jl_array_data newa)). by rewrite Hperm. }
  split; [lia|]. by do 3 (split; [done|]).
Qed.

End InsertTermination.

Section InsertLoop.
Context {D : Type} {assertions : bool}.
Implicit Types (hash : smallintset_hash D) (data : D).

Lemma insert_loop_terminates (HT h : Z) (rfuel fuel : nat) (c : cache_ref) hash
    (val : Z) data (m : Z) :
  HT = 2 ^ h → 1 ≤ h ≤ 62 →
  table_inv assertions (pcache c) → cap_at (jl_array_nrows (pcache c)) m →
  63 ≤ Z.of_nat rfuel → 62 - m < Z.of_nat fuel →
  ∃ c', insert_loop assertions HT rfuel fuel c hash val data = Ret c'.
Proof.
  intros HHT Hh. revert c m.
  induction fuel as [|fuel IH]; intros c m Hinv Hcap Hrfuel Hfuel.
  { destruct Hcap as [[_ ->]|[? _]]; lia. }
  destruct Hinv as (Hwf & Hty & Hdom & Hocc).
  assert (cap_ok (jl_array_nrows (pcache c))) as Hcapok.
  { destruct Hcap as [[-> _]|[? ->]]; [by left|right]. exists m. split; [lia|done]. }
  cbn [insert_loop].
  destruct (insert_cases (pcache c) (hash val data) (wrap (val + 1)) Hty Hcapok)
    as [[-> Hfull]|(p & _ & _ & _ & ->)]; cbn [bind]; [|by eexists].
  cbn [pcache released].
  assert (-1 ≤ m) as Hm0 by (destruct Hcap as [[_ ->]|[? _]]; lia).
  assert (m ≤ 61) as Hm.
  { destruct Hcap as [[_ ->]|[Hm Hsz]]; [lia|].
    destruct (decide (m = 62)) as [->|]; [|lia].
    rewrite Hsz, probe_len_top in Hfull. lia. }
  destruct (grow_pow2 HT h _ m HHT Hh Hcap Hm) as (m1 & -> & Hm1 & _).
  destruct (rehash_terminates (assertions:=assertions) rfuel
              (CacheRef (pcache c) (released c)) hash data m1 0)
    as (c' & m' & -> & Hm' & Hn' & Hinv' & _); [by left|right; lia|lia..|].
  cbn [bind]. apply (IH c' m'); [done| |done|lia].
  right. split; [lia|done].
Qed.

Lemma insert_terminates (HT h : Z) (fuel : nat) (c : cache_ref) hash (val : Z) data :
  HT = 2 ^ h → 1 ≤ h ≤ 62 →
  wf_array (pcache c) → cap_ok (jl_array_nrows (pcache c)) →
  jl_array_nrows (pcache c) ≤ 2 ^ 56 →
  assertions = false
  ∨ (val + 1 < 0x7FFFFFFF ∧ Forall (λ v, v < 0x7FFFFFFF) (jl_array_data (pcache c))) →
  0 ≤ val → val + 1 < 2 ^ 64 →
  64 ≤ Z.of_nat fuel →
  ∃ c', jl_smallintset_insert assertions HT fuel c hash val data = Ret c'.
Proof.
  intros HHT Hh Hwf Hcap Hsz Hadm Hval0 Hval Hfuel.
  assert (assertions = false ∨ val + 1 < 0x7FFFFFFF) as Hv1
    by (destruct Hadm as [?|[? _]]; [by left|by right]).
  assert (assertions = false ∨ Forall (λ v, v < 0x7FFFFFFF) (jl_array_data (pcache c)))
    as Hdom by (destruct Hadm as [?|[_ ?]]; [by left|by right]).
  assert (wrap (val + 1) = val + 1) as Hwrap by (apply Z.mod_small; lia).
  assert (Z.of_nat (occupied (jl_array_data (pcache c))) ≤ 2 ^ 56) as Hocc.
  { unfold occupied, jl_array_nrows in *.
    pose proof (length_filter (λ v, v ≠ 0) (jl_array_data (pcache c))). lia. }
  assert (∃ m, cap_at (jl_array_nrows (pcache c)) m ∧ m ≤ 56) as (m & Hm & Hm56).
  { destruct Hcap as [H0|(m & Hm & Hp)]; [exists (-1); split; [by left|lia]|].
    assert (m ≤ 56). { rewrite Hp in Hsz. apply Z.pow_le_mono_r_iff in Hsz; lia. }
    exists m. split; [right|done]. split; [lia|done]. }
  assert (-1 ≤ m) as Hm0 by (destruct Hm as [[_ ->]|[? _]]; lia).
  unfold jl_smallintset_insert. rewrite Hwrap.
  assert (∃ mx, jl_max_int (pcache c) = Ret mx
                ∧ (val + 1 ≤ mx → int_eltype (jl_tparam0 (pcache c)) = true))
    as (mx & -> & Hmx).
  { unfold jl_max_int. destruct Hwf as [[Hty _]|[-> _]]; [|exists 0; split; [done|lia]].
    destruct (jl_tparam0 (pcache c)); try done; eexists; by split. }
  cbn [bind]. destruct (Z.gtb_spec (val + 1) mx) as [Hgt|Hle].
  - destruct Hm as [[Hz ->]|[Hm Hp]].
    + (* capacity 0: the widening rehash allocates an empty table *)
      assert (jl_array_data (pcache c) = []) as Hnil.
      { unfold jl_array_nrows in Hz. by destruct (jl_array_data (pcache c)). }
      unfold smallintset_rehash. rewrite Hz. change (Z.to_nat 0) with O.
      cbn [rehash_np bind].
      destruct fuel as [|fuel]; [lia|].
      destruct (rehash_loop_empty (assertions:=assertions) fuel (pcache c) hash data 0 (val + 1))
        as (newa & Hrun & Hn & Hwf' & Hty' & Hent & _);
        [done|by rewrite Hnil|done|by left|by rewrite Hnil|].
      rewrite Hz in Hrun. rewrite Hrun. cbn [bind].
      apply (insert_loop_terminates HT h _ _ _ hash val data (-1)); try (done || lia).
      * split; [done|]. split; [done|]. cbn [pcache].
        assert (jl_array_data newa = []) as ->.
        { unfold jl_array_nrows in Hn. by destruct (jl_array_data newa). }
        split; [right; constructor|by vm_compute].
      * left. by split.
    + rewrite Hp.
      destruct (rehash_terminates (assertions:=assertions) fuel c hash data m (val + 1))
        as (c' & m' & -> & Hm' & Hn' & Hinv' & _).
      { destruct Hwf as [[Hty Hr]|[Hany Hnil]].
        - left. split; [by left|]. by repeat split.
        - right. split; [by right|done]. }
      { done. } { lia. } { lia. }
      cbn [bind]. apply (insert_loop_terminates HT h _ _ _ hash val data m'); try (done || lia).
      right. split; [lia|done].
  - cbn [bind]. apply (insert_loop_terminates HT h _ _ _ hash val data m); try (done || lia).
    split; [done|]. split; [apply Hmx; lia|]. by split.
Qed.

End InsertLoop.

(** ** What a finished rehash has built *)

Lemma shift_pow2 (m s : Z) :
  0 ≤ m → 0 ≤ s →
  wrap (Z.shiftl (2 ^ m) s) = if decide (m + s < 64) then 2 ^ (m + s) else 0.
Proof.
  intros Hm Hs. unfold wrap. rewrite Z.shiftl_mul_pow2 by lia.
  rewrite <- Z.pow_add_r by lia. case_decide.
  - apply Z.mod_small. split; [apply Z.pow_nonneg; lia|apply Z.pow_lt_mono_r; lia].
  - replace (m + s) with ((m + s - 64) + 64) by lia.
    rewrite Z.pow_add_r by lia. apply Z.mod_mul. lia.
Qed.

Lemma attempt_cap_0 (k : nat) : attempt_cap 0 k = 0.
Proof. induction k as [|k IH]; [done|]. by change (attempt_cap 0 (S k)) with (attempt_cap 0 k). Qed.

Lemma attempt_cap_ge (newsz : Z) (k : nat) :
  cap_ok newsz → attempt_cap newsz k ≠ 0 → newsz ≤ attempt_cap newsz k.
Proof.
  revert newsz. induction k as [|k IH]; intros newsz Hcap Hne; [simpl; lia|].
  simpl in *. destruct Hcap as [->|(m & Hm & ->)].
  { change (wrap (Z.shiftl 0 1)) with 0 in *. by rewrite attempt_cap_0 in Hne. }
  rewrite shift_pow2 in Hne |- * by lia.
  destruct (decide (m + 1 < 64)).
  - etrans; [|apply IH; [right; exists (m + 1); split; [lia|done]|done]].
    apply Z.pow_le_mono_r; lia.
  - by rewrite attempt_cap_0 in Hne.
Qed.

Section RehashSound.
Context {D : Type} {assertions : bool}.
Implicit Types (hash : smallintset_hash D) (data : D).

Lemma rehash_sound (fuel : nat) (c c' : cache_ref) hash data (newsz np : Z) :
  wf_array (pcache c) → cap_ok newsz →
  smallintset_rehash assertions fuel c hash data newsz np = Ret c' →
  ∃ k, (k < fuel)%nat
    ∧ (∀ j, (j < k)%nat →
         build assertions (pcache c) hash data (max_slot np (jl_array_data (pcache c)))
           (attempt_cap newsz j) = Ret None)
    ∧ build assertions (pcache c) hash data (max_slot np (jl_array_data (pcache c)))
        (attempt_cap newsz k) = Ret (Some (pcache c'))
    ∧ released c' = released c ++ [pcache c']
    ∧ entries (jl_array_data (pcache c')) ≡ₚ entries (jl_array_data (pcache c))
    ∧ wf_array (pcache c') ∧ int_eltype (jl_tparam0 (pcache c')) = true
    ∧ jl_array_nrows (pcache c') = attempt_cap newsz k
    ∧ newsz ≤ jl_array_nrows (pcache c')
    ∧ (entries (jl_array_data (pcache c)) = [] ∨ 2 ≤ jl_array_nrows (pcache c'))
    ∧ (max_slot np (jl_array_data (pcache c)) < 2 ^ width (jl_tparam0 (pcache c')) - 1
       ∨ 0x7FFFFFFF ≤ max_slot np (jl_array_data (pcache c)))
    ∧ (assertions = false ∨ max_slot np (jl_array_data (pcache c)) < 0x7FFFFFFF).
Proof.
  intros Hwf Hcap. unfold smallintset_rehash.
  rewrite rehash_np_spec; [|by apply wf_arr_ok|lia|unfold jl_array_nrows; lia].
  rewrite drop_0. cbn [bind].
  set (np' := max_slot np (jl_array_data (pcache c))).
  destruct (rehash_loop assertions _ _ _ _ _ _ _) as [newa| |] eqn:Hrun; cbn [bind]; try done.
  intros [= <-]. cbn [pcache released].
  destruct (rehash_loop_sound _ _ _ _ _ _ _ (wf_arr_ok _ Hwf) Hrun) as (k & Hk & Hfail & Hb).
  exists k. do 4 (split; [done|]).
  pose proof (max_slot_le (jl_array_data (pcache c)) np) as [Hnp' Hle]. fold np' in Hnp', Hle.
  destruct (build_props (assertions:=assertions) (pcache c) hash data np'
              (attempt_cap newsz k) Hwf (cap_ok_attempt _ k Hcap) Hle)
    as [[Hab _]|(Hadm & r & Hr & Hprops)];
    [by rewrite Hb in Hab|].
  rewrite Hb in Hr. injection Hr as <-.
  destruct Hprops as (Hwf' & Hty' & Hn' & Hperm & Hw & Hc2).
  do 4 (split; [done|]). split.
  - rewrite Hn'. destruct k as [|k]; [simpl; lia|].
    apply attempt_cap_ge; [done|].
    destruct Hc2 as [Hnil|?]; [|lia].
    specialize (Hfail O ltac:(lia)).
    destruct (build_props (assertions:=assertions) (pcache c) hash data np'
                (attempt_cap newsz 0) Hwf (cap_ok_attempt _ O Hcap) Hle)
      as [[Hab _]|(_ & r & Hr & Hprops)];
      [by rewrite Hfail in Hab|].
    rewrite Hfail in Hr. injection Hr as <-. by destruct Hprops.
  - split; [|done]. by rewrite Hn'.
Qed.

End RehashSound.

(** ** Capacities of the tables an insertion publishes *)

Lemma grow_cap_ok (HT h sz : Z) :
  HT = 2 ^ h → 0 ≤ h → cap_ok sz →
  cap_ok (grow_newsz HT sz) ∧ (grow_newsz HT sz = 0 ∨ HT ≤ grow_newsz HT sz).
Proof.
  intros -> Hh Hcap. unfold grow_newsz.
  assert (0 < 2 ^ h) by (apply Z.pow_pos_nonneg; lia).
  destruct (Z.ltb_spec sz (2 ^ h)) as [Hlt|Hge].
  { split; [right; exists h; by split|right; lia]. }
  destruct Hcap as [->|(m & Hm & ->)]; [lia|].
  assert (∀ s, 0 ≤ s →
    cap_ok (wrap (Z.shiftl (2 ^ m) s))
    ∧ (wrap (Z.shiftl (2 ^ m) s) = 0 ∨ 2 ^ h ≤ wrap (Z.shiftl (2 ^ m) s))) as Hs.
  { intros s Hs. rewrite shift_pow2 by lia. case_decide; [|split; by left].
    split; [right; exists (m + s); split; [lia|done]|right].
    etrans; [exact Hge|]. apply Z.pow_le_mono_r; lia. }
  destruct (_ || _); apply Hs; lia.
Qed.

Lemma insert_full_occupied (a : jl_array_t) (hv val1 : Z) :
  int_eltype (jl_tparam0 a) = true → cap_ok (jl_array_nrows a) → 2 ≤ jl_array_nrows a →
  smallintset_insert_ a hv val1 = Ret (false, a) → entries (jl_array_data a) ≠ [].
Proof.
  intros Hty Hcap Hsz Hrun.
  destruct (insert_cases a hv val1 Hty Hcap) as [[_ Hfull]|(p & _ & _ & _ & Hok)];
    [|by rewrite Hok in Hrun].
  destruct Hfull as [?|Hfull]; [lia|].
  pose proof (probe_len_bounds (jl_array_nrows a) ltac:(lia)).
  intros Hnil. unfold occupied in Hfull. fold (entries (jl_array_data a)) in Hfull.
  rewrite Hnil in Hfull. simpl in Hfull. lia.
Qed.

Lemma store_nrows (a : jl_array_t) (p v : Z) : jl_array_nrows (store a p v) = jl_array_nrows a.
Proof. unfold store, jl_array_nrows. simpl. by rewrite length_insert. Qed.

Section InsertCaps.
Context {D : Type} {assertions : bool}.
Implicit Types (hash : smallintset_hash D) (data : D).

Lemma insert_loop_caps (HT h : Z) (rfuel fuel : nat) (c c' : cache_ref) hash (val : Z) data :
  HT = 2 ^ h → 1 ≤ h →
  wf_array (pcache c) → int_eltype (jl_tparam0 (pcache c)) = true →
  cap_ok (jl_array_nrows (pcache c)) → small_or_baseline HT (pcache c) →
  insert_loop assertions HT rfuel fuel c hash val data = Ret c' →
  HT ≤ jl_array_nrows (pcache c')
  ∧ ∃ new, released c' = released c ++ new ∧ Forall (λ a, HT ≤ jl_array_nrows a) new.
Proof.
  intros HHT Hh. revert c.
  assert (2 ≤ HT) as HHT2.
  { rewrite HHT. change 2 with (2 ^ 1). apply Z.pow_le_mono_r; lia. }
  induction fuel as [|fuel IH]; intros c Hwf Hty Hcap Hsb Hrun; [done|].
  cbn [insert_loop] in Hrun.
  destruct (insert_cases (pcache c) (hash val data) (wrap (val + 1)) Hty Hcap)
    as [[Hfail Hfull]|(p & _ & Hsz & _ & Hok)].
  - rewrite Hfail in Hrun. cbn [bind pcache released] in Hrun.
    destruct (smallintset_rehash assertions _ _ _ _ _ _) as [c1| |] eqn:Hre; cbn [bind] in Hrun;
      try done.
    destruct (grow_cap_ok HT h (jl_array_nrows (pcache c)) HHT ltac:(lia) Hcap)
      as [Hgcap Hg].
    destruct (rehash_sound _ _ _ _ _ _ _ Hwf Hgcap Hre)
      as (k & _ & _ & _ & Hrel & _ & Hwf1 & Hty1 & Hn1 & Hge1 & Hc2 & _).
    cbn [pcache released] in *.
    assert (HT ≤ jl_array_nrows (pcache c1)) as Hbase.
    { destruct Hg as [Hg0|Hg]; [|lia].
      (* the capacity wrapped to zero: the table was not full *)
      rewrite Hg0, attempt_cap_0 in Hn1.
      destruct Hc2 as [Hnil|?]; [|lia].
      unfold grow_newsz in Hg0.
      destruct (Z.ltb_spec (jl_array_nrows (pcache c)) HT); [lia|].
      by destruct (insert_full_occupied _ _ _ Hty Hcap ltac:(lia) Hfail). }
    destruct (IH c1) as (Hfin & new & Hnew & Hall); [done|done| |by left|done|].
    { rewrite Hn1. by apply cap_ok_attempt. }
    split; [done|]. exists (pcache c1 :: new). split.
    + by rewrite Hnew, Hrel, <- app_assoc.
    + by constructor.
  - rewrite Hok in Hrun. cbn [bind] in Hrun. injection Hrun as <-.
    cbn [pcache released]. rewrite store_nrows. split.
    + destruct Hsb as [?|[? _]]; lia.
    + exists []. by rewrite app_nil_r.
Qed.

Lemma insert_caps (HT h : Z) (fuel : nat) (c c' : cache_ref) hash (val : Z) data :
  HT = 2 ^ h → 1 ≤ h →
  wf_array (pcache c) → cap_ok (jl_array_nrows (pcache c)) →
  small_or_baseline HT (pcache c) → 0 ≤ val < 2 ^ 63 →
  jl_smallintset_insert assertions HT fuel c hash val data = Ret c' →
  HT ≤ jl_array_nrows (pcache c')
  ∧ ∃ new, released c' = released c ++ new ∧ Forall (small_or_baseline HT) new.
Proof.
  intros HHT Hh Hwf Hcap Hsb Hval. unfold jl_smallintset_insert.
  assert (wrap (val + 1) = val + 1) as -> by (apply Z.mod_small; lia).
  assert (∃ mx, jl_max_int (pcache c) = Ret mx
                ∧ (val + 1 ≤ mx → int_eltype (jl_tparam0 (pcache c)) = true))
    as (mx & -> & Hmx).
  { unfold jl_max_int. destruct Hwf as [[Hty _]|[-> _]]; [|exists 0; split; [done|lia]].
    destruct (jl_tparam0 (pcache c)); try done; eexists; by split. }
  cbn [bind]. destruct (Z.gtb_spec (val + 1) mx) as [Hgt|Hle].
  - destruct (smallintset_rehash assertions _ _ _ _ _ _) as [c1| |] eqn:Hre; cbn [bind]; try done.
    destruct (rehash_sound _ _ _ _ _ _ _ Hwf Hcap Hre)
      as (k & _ & Hfail & Hb & Hrel & Hperm & Hwf1 & Hty1 & Hn1 & Hge1 & Hc2 & _).
    assert (small_or_baseline HT (pcache c1)) as Hsb1.
    { destruct Hsb as [?|[Hsmall Hnil]]; [left; lia|right].
      rewrite Hnil in Hperm. apply Permutation_nil_r in Hperm. split; [|done].
      destruct k as [|k]; [by rewrite Hn1|].
      specialize (Hfail O ltac:(lia)).
      destruct (build_props (assertions:=assertions) (pcache c) hash data
                  (max_slot (val + 1) (jl_array_data (pcache c))) (attempt_cap
                  (jl_array_nrows (pcache c)) 0) Hwf (cap_ok_attempt _ O Hcap))
        as [[Hab _]|(_ & r & Hr & Hprops)].
      - apply max_slot_le.
      - by rewrite Hfail in Hab.
      - rewrite Hfail in Hr. injection Hr as <-. by destruct Hprops. }
    intros Hrun.
    assert (cap_ok (jl_array_nrows (pcache c1))) as Hcap1
      by (rewrite Hn1; by apply cap_ok_attempt).
    destruct (insert_loop_caps HT h _ _ _ _ _ _ _ HHT Hh Hwf1 Hty1 Hcap1 Hsb1 Hrun)
      as (Hfin & new & Hnew & Hall).
    split; [done|]. exists (pcache c1 :: new). split.
    + by rewrite Hnew, Hrel, <- app_assoc.
    + constructor; [done|]. eapply Forall_impl; [exact Hall|]. intros a ?. by left.
  - cbn [bind]. intros Hrun.
    destruct (insert_loop_caps HT h _ _ _ _ _ _ _ HHT Hh Hwf (Hmx ltac:(lia)) Hcap Hsb Hrun)
      as (Hfin & new & Hnew & Hall).
    split; [done|]. exists new. split; [done|].
    eapply Forall_impl; [exact Hall|]. intros a ?. by left.
Qed.

End InsertCaps.


(** ** Growth and aborts *)

Lemma double_small (sz : Z) : 0 ≤ sz < 2 ^ 63 → wrap (Z.shiftl sz 1) = sz * 2.
Proof.
  intros H. unfold wrap. rewrite Z.shiftl_mul_pow2 by lia.
  change (2 ^ 1) with 2. apply Z.mod_small. lia.
Qed.

Lemma quad_small (sz : Z) : 0 ≤ sz < 2 ^ 62 → wrap (Z.shiftl sz 2) = sz * 4.
Proof.
  intros H. unfold wrap. rewrite Z.shiftl_mul_pow2 by lia.
  change (2 ^ 2) with 4. apply Z.mod_small. lia.
Qed.

Lemma grow_newsz_spec (HT sz : Z) :
  0 ≤ sz < 2 ^ 63 → grow_newsz HT sz = next_capacity HT sz.
Proof.
  intros Hsz. unfold grow_newsz, next_capacity.
  change (Z.shiftl 1 19) with (2 ^ 19). change (Z.shiftl 1 8) with (2 ^ 8).
  destruct (Z.ltb_spec sz HT); case_decide; try lia.
  destruct (Z.geb_spec sz (2 ^ 19)); destruct (Z.leb_spec sz (2 ^ 8)); simpl;
    case_decide; try lia; (apply double_small || apply quad_small); lia.
Qed.

Lemma probe_from_length (n : nat) (sz start p : Z) :
  (length (probe_from n sz start p) ≤ n)%nat.
Proof.
  revert p. induction n as [|n IH]; intros p; simpl; [lia|].
  case_decide; simpl; [lia|]. specialize (IH ((p + 1) mod sz)). lia.
Qed.

Section Aborts.
Context {D : Type} {assertions : bool}.
Implicit Types (hash : smallintset_hash D) (data : D).

Lemma rehash_aborts (fuel : nat) (c : cache_ref) hash data (newsz np : Z) :
  arr_ok (pcache c) → assertions = true →
  0x7FFFFFFF ≤ max_slot np (jl_array_data (pcache c)) →
  smallintset_rehash assertions (S fuel) c hash data newsz np = Abort.
Proof.
  intros Hok Hon Hnp. unfold smallintset_rehash.
  rewrite rehash_np_spec; [|done|lia|unfold jl_array_nrows; lia].
  rewrite drop_0. cbn [bind rehash_loop].
  by rewrite (proj2 (alloc_abort_iff _ newsz) (conj Hon Hnp)).
Qed.

End Aborts.

(** ** The loops come to an end *)

Lemma max_slot_Forall (l : list Z) (np b : Z) :
  max_slot np l < b → np < b ∧ Forall (λ v, v < b) l.
Proof.
  intros H. destruct (max_slot_le l np) as [Hnp Hle]. split; [lia|].
  eapply Forall_impl; [exact Hle|]. simpl. lia.
Qed.

Lemma occupied_le (l : list Z) (b : Z) :
  Z.of_nat (length l) ≤ b → Z.of_nat (occupied l) ≤ b.
Proof. intros H. unfold occupied. pose proof (length_filter (λ v, v ≠ 0) l). lia. Qed.

Section Halts.
Context {D : Type} {assertions : bool}.
Implicit Types (hash : smallintset_hash D) (data : D).

(** A rehash returns when its allocation is not refused: from a
    starting capacity that is a power of two, and from capacity 0
    when the old table has no entry. *)
Lemma rehash_returns (fuel : nat) (c : cache_ref) hash data (newsz np : Z) :
  wf_array (pcache c) → Z.of_nat (occupied (jl_array_data (pcache c))) ≤ 2 ^ 56 →
  cap_ok newsz → newsz ≤ 2 ^ 62 →
  (newsz = 0 → entries (jl_array_data (pcache c)) = []) →
  assertions = false ∨ max_slot np (jl_array_data (pcache c)) < 0x7FFFFFFF →
  63 ≤ Z.of_nat fuel →
  ∃ c', smallintset_rehash assertions fuel c hash data newsz np = Ret c'
        ∧ newsz ≤ jl_array_nrows (pcache c') ≤ 2 ^ 62
        ∧ cap_ok (jl_array_nrows (pcache c'))
        ∧ entries (jl_array_data (pcache c')) ≡ₚ entries (jl_array_data (pcache c)).
Proof.
  intros Hwf Hocc Hcap Hsz Hzero Hadm Hfuel.
  destruct Hcap as [->|(m & Hm & ->)].
  - unfold smallintset_rehash.
    rewrite rehash_np_spec; [|by apply wf_arr_ok|lia|unfold jl_array_nrows; lia].
    rewrite drop_0. cbn [bind].
    pose proof (max_slot_le (jl_array_data (pcache c)) np) as [_ Hle].
    destruct fuel as [|fuel]; [lia|].
    destruct (rehash_loop_empty (assertions:=assertions) fuel (pcache c) hash data 0 _
                Hwf Hle Hadm) as (newa & -> & Hn & _ & _ & Hent & _);
      [by left|by apply Hzero|].
    cbn [bind]. eexists. split; [done|]. cbn [pcache]. rewrite Hn, Hent, Hzero by done.
    split; [by vm_compute|]. split; [by left|done].
  - assert (m ≤ 62) as Hm62 by (apply Z.pow_le_mono_r_iff in Hsz; lia).
    destruct (rehash_terminates (assertions:=assertions) fuel c hash data m np)
      as (c' & m' & -> & Hm' & Hn' & _ & Hperm & _).
    + destruct Hwf as [[Hty Hr]|[Hany Hnil]].
      * left. split; [by left|]. split; [done|]. split; [|done].
        destruct Hadm as [?|Hadm]; [by left|right].
        by apply max_slot_Forall in Hadm as [_ ?].
      * right. split; [by right|done].
    + destruct Hadm as [?|Hadm]; [by left|right].
      by apply max_slot_Forall in Hadm as [? _].
    + lia.
    + lia.
    + eexists. split; [done|]. rewrite Hn'. split.
      * split; apply Z.pow_le_mono_r; lia.
      * split; [|done]. right. exists m'. split; [lia|done].
Qed.

(** A rehash ends: it returns, or its first allocation is refused. *)
Lemma rehash_halts (fuel : nat) (c : cache_ref) hash data (newsz np : Z) :
  wf_array (pcache c) → Z.of_nat (occupied (jl_array_data (pcache c))) ≤ 2 ^ 56 →
  cap_ok newsz → newsz ≤ 2 ^ 62 →
  (newsz = 0 → entries (jl_array_data (pcache c)) = []) →
  63 ≤ Z.of_nat fuel →
  smallintset_rehash assertions fuel c hash data newsz np ≠ OutOfFuel.
Proof.
  intros Hwf Hocc Hcap Hsz Hzero Hfuel.
  destruct (decide (assertions = false
                    ∨ max_slot np (jl_array_data (pcache c)) < 0x7FFFFFFF)) as [Hadm|Hno].
  - by destruct (rehash_returns fuel c hash data newsz np) as (c' & -> & _).
  - destruct fuel as [|fuel]; [lia|].
    rewrite rehash_aborts; [done|by apply wf_arr_ok| |].
    + destruct assertions; [done|]. destruct Hno. by left.
    + destruct (decide (0x7FFFFFFF ≤ max_slot np (jl_array_data (pcache c)))); [done|].
      destruct Hno. right. lia.
Qed.

(** The insertion loop ends: it returns, or the allocation of a growth
    rehash is refused. *)
Lemma insert_loop_halts (HT h : Z) (rfuel fuel : nat) (c : cache_ref) hash
    (val : Z) data (m : Z) :
  HT = 2 ^ h → 1 ≤ h ≤ 62 →
  wf_array (pcache c) → int_eltype (jl_tparam0 (pcache c)) = true →
  Z.of_nat (occupied (jl_array_data (pcache c))) ≤ 2 ^ 56 →
  cap_at (jl_array_nrows (pcache c)) m →
  63 ≤ Z.of_nat rfuel → 62 - m < Z.of_nat fuel →
  insert_loop assertions HT rfuel fuel c hash val data ≠ OutOfFuel.
Proof.
  intros HHT Hh Hwf Hty Hocc Hcap Hrfuel Hfuel.
  destruct (decide (assertions = false
                    ∨ max_slot 0 (jl_array_data (pcache c)) < 0x7FFFFFFF)) as [Hadm|Hno].
  - destruct (insert_loop_terminates (assertions:=assertions) HT h rfuel fuel c hash val data m)
      as (c' & ->); try done.
    split; [done|]. split; [done|]. split; [|done].
    destruct Hadm as [?|Hadm]; [by left|right].
    by apply max_slot_Forall in Hadm as [_ ?].
  - assert (cap_ok (jl_array_nrows (pcache c))) as Hcapok.
    { destruct Hcap as [[-> _]|[? ->]]; [by left|right]. exists m. split; [lia|done]. }
    destruct fuel as [|fuel]; [destruct Hcap as [[_ ->]|[? _]]; lia|].
    destruct rfuel as [|rfuel]; [lia|].
    cbn [insert_loop].
    destruct (insert_cases (pcache c) (hash val data) (wrap (val + 1)) Hty Hcapok)
      as [[-> _]|(p & _ & _ & _ & ->)]; cbn [bind]; [|done].
    cbn [pcache released].
    rewrite rehash_aborts; [done|by left| |].
    + destruct assertions; [done|]. destruct Hno. by left.
    + cbn [pcache].
      destruct (decide (0x7FFFFFFF ≤ max_slot 0 (jl_array_data (pcache c)))); [done|].
      destruct Hno. right. lia.
Qed.

(** An insertion ends: it returns, or the allocation of a rehash is
    refused. *)
Lemma insert_halts (HT h : Z) (fuel : nat) (c : cache_ref) hash (val : Z) data :
  HT = 2 ^ h → 1 ≤ h ≤ 62 →
  wf_array (pcache c) → cap_ok (jl_array_nrows (pcache c)) →
  jl_array_nrows (pcache c) ≤ 2 ^ 56 →
  0 ≤ val → val + 1 < 2 ^ 64 →
  64 ≤ Z.of_nat fuel →
  jl_smallintset_insert assertions HT fuel c hash val data ≠ OutOfFuel.
Proof.
  intros HHT Hh Hwf Hcap Hsz Hval0 Hval Hfuel.
  destruct (decide (assertions = false
                    ∨ max_slot (val + 1) (jl_array_data (pcache c)) < 0x7FFFFFFF))
    as [Hadm|Hno].
  - destruct (insert_terminates (assertions:=assertions) HT h fuel c hash val data)
      as (c' & ->); try done.
    destruct Hadm as [?|Hadm]; [by left|right]. by apply max_slot_Forall in Hadm.
  - assert (wrap (val + 1) = val + 1) as Hwrap by (apply Z.mod_small; lia).
    assert (∃ m, cap_at (jl_array_nrows (pcache c)) m ∧ m ≤ 56) as (m & Hm & Hm56).
    { destruct Hcap as [H0|(m & Hm & Hp)]; [exists (-1); split; [by left|lia]|].
      assert (m ≤ 56). { rewrite Hp in Hsz. apply Z.pow_le_mono_r_iff in Hsz; lia. }
      exists m. split; [right|done]. split; [lia|done]. }
    assert (-1 ≤ m) as Hm0 by (destruct Hm as [[_ ->]|[? _]]; lia).
    unfold jl_smallintset_insert. rewrite Hwrap.
    assert (∃ mx, jl_max_int (pcache c) = Ret mx
                  ∧ (val + 1 ≤ mx → int_eltype (jl_tparam0 (pcache c)) = true))
      as (mx & -> & Hmx).
    { unfold jl_max_int. destruct Hwf as [[Hty _]|[-> _]]; [|exists 0; split; [done|lia]].
      destruct (jl_tparam0 (pcache c)); try done; eexists; by split. }
    cbn [bind]. destruct (Z.gtb_spec (val + 1) mx) as [Hgt|Hle].
    + destruct fuel as [|fuel]; [lia|].
      rewrite rehash_aborts; [done|by apply wf_arr_ok| |].
      * destruct assertions; [done|]. destruct Hno. by left.
      * destruct (decide (0x7FFFFFFF
                          ≤ max_slot (val + 1) (jl_array_data (pcache c)))); [done|].
        destruct Hno. right. lia.
    + cbn [bind].
      apply (insert_loop_halts HT h _ _ _ hash val data m); try (done || lia).
      * apply Hmx. lia.
      * by apply occupied_le.
Qed.

End Halts.

(** ** The concrete tables are tables the insertion builds *)

Example wide_table_reached (assertions : bool) :
  ∃ c, insert_many assertions 32 8 empty_set hash_id tt [3; 70000] = Ret c
       ∧ pcache c = pcache wide_table.
Proof. destruct assertions; (eexists; split; [by vm_compute|reflexivity]). Qed.

Example full_window_reached (assertions : bool) :
  ∃ c, insert_many assertions 32 8 empty_set hash_zero tt (seqZ 0 17) = Ret c
       ∧ pcache c = pcache full_window.
Proof. destruct assertions; (eexists; split; [by vm_compute|reflexivity]). Qed.

(** * The claims *)

(** ** C1 *)

(** C1 (round trip) fails on the code: inserting the index 300 into the
    empty index set leaves an 8-bit table whose slot holds 45, that is
    301 cut to eight bits, and the lookup of 300 with the same hash and
    a matching equality answers NotFound although no probe bound was
    reached.  The growth rehash inside the insertion passes 0 instead of
    the pending value and so narrows the table again. *)
Theorem insert_300_not_found (assertions : bool) :
  ∃ c', jl_smallintset_insert assertions 32 8 empty_set hash_id 300 tt = Ret c'
        ∧ jl_tparam0 (pcache c') = jl_uint8_type
        ∧ jl_array_nrows (pcache c') = 32
        ∧ entries (jl_array_data (pcache c')) = [45]
        ∧ h2index (hash_id 300 tt) 32 = 12
        ∧ slot (jl_array_data (pcache c')) 12 = 45
        ∧ jl_smallintset_lookup (pcache c') eq_id 300 tt (hash_id 300 tt) = Ret (-1).
Proof. destruct assertions; (eexists; split; [by vm_compute|]; by vm_compute). Qed.

(** The same loss from a well-formed 8-bit table: its probe window for
    the hash is full, the insertion widens, grows, narrows and stores
    301 cut to eight bits. *)
Example insert_300_full_window (assertions : bool) :
  ∃ c', jl_smallintset_insert assertions 32 8 full_window hash_zero 300 tt = Ret c'
        ∧ jl_tparam0 (pcache c') = jl_uint8_type
        ∧ entries (jl_array_data (pcache c')) = seqZ 1 17 ++ [45]
        ∧ jl_smallintset_lookup (pcache c') eq_id 300 tt (hash_zero 300 tt) = Ret (-1).
Proof. destruct assertions; (eexists; split; [by vm_compute|]; by vm_compute). Qed.

(** ** C2 *)

(** C2 (width monotonicity) fails on the code: during the insertion of
    300 into the empty index set the published tables go from 16-bit
    slots to 8-bit slots, and after the insertion the largest value of
    the current width, 255, is below 300 + 1. *)
Theorem insert_300_narrows (assertions : bool) :
  ∃ c', jl_smallintset_insert assertions 32 8 empty_set hash_id 300 tt = Ret c'
        ∧ jl_tparam0 <$> released c' = [jl_uint16_type; jl_uint8_type]
        ∧ jl_tparam0 (pcache c') = jl_uint8_type
        ∧ jl_max_int (pcache c') = Ret 255
        ∧ 255 < 300 + 1.
Proof. destruct assertions; (eexists; split; [by vm_compute|]; by vm_compute). Qed.

(** ** C4 *)

(** C4: a rehash that returns has made [k] failed attempts, each from a
    fresh zeroed table at the doubled capacity, and publishes the result
    of the first attempt in which every non-zero entry of the old table,
    in slot order and with the hash of its decoded index, was placed;
    the published table holds exactly the old entries. *)
Theorem rehash_rebuilds {assertions : bool} {D : Type} (fuel : nat)
    (c c' : cache_ref) (hash : smallintset_hash D) (data : D) (newsz np : Z) :
  wf_array (pcache c) → cap_ok newsz →
  smallintset_rehash assertions fuel c hash data newsz np = Ret c' →
  ∃ k : nat,
    (∀ j, (j < k)%nat →
       build assertions (pcache c) hash data (max_slot np (jl_array_data (pcache c)))
         (attempt_cap newsz j) = Ret None)
    ∧ build assertions (pcache c) hash data (max_slot np (jl_array_data (pcache c)))
        (attempt_cap newsz k) = Ret (Some (pcache c'))
    ∧ (∀ j, attempt_cap newsz (S j) = wrap (Z.shiftl (attempt_cap newsz j) 1))
    ∧ released c' = released c ++ [pcache c']
    ∧ jl_array_nrows (pcache c') = attempt_cap newsz k
    ∧ entries (jl_array_data (pcache c')) ≡ₚ entries (jl_array_data (pcache c)).
Proof.
  intros Hwf Hcap Hrun.
  destruct (rehash_sound _ _ _ _ _ _ _ Hwf Hcap Hrun)
    as (k & _ & Hfail & Hb & Hrel & Hperm & _ & _ & Hn & _).
  exists k. do 2 (split; [done|]). split; [|done].
  intros j. clear. revert newsz. induction j as [|j IH]; intros newsz; [done|].
  change (attempt_cap newsz (S (S j))) with (attempt_cap (wrap (Z.shiftl newsz 1)) (S j)).
  by rewrite IH.
Qed.

Lemma rehash_rebuilds_witness :
  ∃ k : nat,
    (∀ j, (j < k)%nat →
       build true (pcache three_of_four) hash_id tt
         (max_slot 0 (jl_array_data (pcache three_of_four))) (attempt_cap 2 j) = Ret None)
    ∧ build true (pcache three_of_four) hash_id tt
        (max_slot 0 (jl_array_data (pcache three_of_four))) (attempt_cap 2 k)
      = Ret (Some (JlArray jl_uint8_type [5; 0; 3; 7]))
    ∧ (∀ j, attempt_cap 2 (S j) = wrap (Z.shiftl (attempt_cap 2 j) 1))
    ∧ [JlArray jl_uint8_type [5; 0; 3; 7]] = [] ++ [JlArray jl_uint8_type [5; 0; 3; 7]]
    ∧ jl_array_nrows (JlArray jl_uint8_type [5; 0; 3; 7]) = attempt_cap 2 k
    ∧ entries [5; 0; 3; 7] ≡ₚ entries [3; 5; 7; 0].
Proof.
  apply (rehash_rebuilds (assertions:=true) 4 three_of_four
           (CacheRef (JlArray jl_uint8_type [5; 0; 3; 7]) [JlArray jl_uint8_type [5; 0; 3; 7]])
           hash_id tt 2 0).
  - left. split; [reflexivity|]. simpl. repeat constructor; lia.
  - right. exists 1. split; [lia|reflexivity].
  - reflexivity.
Defined.

(** ** C5 *)

(** C5 as stated fails at [np = 255]: the narrowest class whose largest
    value is at least 255 is the 8-bit one, and the allocation takes
    16-bit slots. *)
Lemma alloc_255_is_16_bit :
  narrowest_class 255 = Some jl_uint8_type
  ∧ ∀ assertions : bool,
      jl_alloc_int_1d assertions 255 4 = Ret (JlArray jl_uint16_type [0; 0; 0; 0]).
Proof. split; [reflexivity|]. by intros []. Qed.

(** C5, amended: for a required value [np] below [2^31 - 1] the
    allocation returns a zeroed table of the narrowest of the 8-, 16-
    and 32-bit classes whose largest value is strictly above [np]; so
    every [np < 255] gets 8-bit slots and every [np < 65535] slots of at
    most 16 bits. *)
Theorem alloc_strict_width {assertions : bool} (np len : Z) :
  np < 0x7FFFFFFF →
  ∃ t, strict_class np = Some t
       ∧ jl_alloc_int_1d assertions np len = Ret (JlArray t (replicate (Z.to_nat len) 0))
       ∧ np < maxValue t
       ∧ (np < 255 → t = jl_uint8_type)
       ∧ (np < 65535 → t = jl_uint8_type ∨ t = jl_uint16_type).
Proof.
  intros Hnp. unfold strict_class, jl_alloc_int_1d, maxValue. cbn [find width].
  destruct (Z.ltb_spec np 0xFF);
    [|destruct (Z.ltb_spec np 0xFFFF); [|destruct (Z.ltb_spec np 0x7FFFFFFF); [|lia]]];
    repeat (case_bool_decide; try lia); destruct assertions;
    eexists; (split; [reflexivity|]); (split; [reflexivity|]); cbn [width];
    repeat split; (lia || tauto || (intros; lia)).
Qed.

Lemma alloc_strict_width_witness :
  ∃ t, strict_class 254 = Some t
       ∧ jl_alloc_int_1d true 254 4 = Ret (JlArray t (replicate (Z.to_nat 4) 0))
       ∧ 254 < maxValue t
       ∧ (254 < 255 → t = jl_uint8_type)
       ∧ (254 < 65535 → t = jl_uint8_type ∨ t = jl_uint16_type).
Proof. apply (alloc_strict_width (assertions:=true) 254 4). lia. Defined.

(** ** C6 *)

(** C6: when the direct placement finds the table full, the insertion
    rehashes to the capacity of the growth policy, the baseline when the
    current capacity [sz] is below it, [sz * 2] when [sz ≥ 2^19] or
    [sz ≤ 2^8], and [sz * 4] otherwise, and tries again.  A capacity is
    the length of an array in memory and so below [2^63]. *)
Theorem growth_policy {assertions : bool} {D : Type} (HT : Z) (rfuel fuel : nat)
    (c : cache_ref) (hash : smallintset_hash D) (val : Z) (data : D) :
  jl_array_nrows (pcache c) < 2 ^ 63 →
  smallintset_insert_ (pcache c) (hash val data) (wrap (val + 1)) = Ret (false, pcache c) →
  grow_newsz HT (jl_array_nrows (pcache c)) = next_capacity HT (jl_array_nrows (pcache c))
  ∧ insert_loop assertions HT rfuel (S fuel) c hash val data
    = (c1 <- smallintset_rehash assertions rfuel c hash data
               (next_capacity HT (jl_array_nrows (pcache c))) 0;;
       insert_loop assertions HT rfuel fuel c1 hash val data).
Proof.
  intros Hsz Hfull.
  assert (grow_newsz HT (jl_array_nrows (pcache c))
          = next_capacity HT (jl_array_nrows (pcache c))) as Hgrow.
  { apply grow_newsz_spec. unfold jl_array_nrows in *. lia. }
  split; [done|].
  cbn [insert_loop]. rewrite Hfull. cbn [bind pcache released].
  rewrite Hgrow. by destruct c.
Qed.

Lemma growth_policy_witness :
  grow_newsz 32 (jl_array_nrows (pcache full_window))
  = next_capacity 32 (jl_array_nrows (pcache full_window))
  ∧ insert_loop true 32 8 (S 7) full_window hash_zero 17 tt
    = (c1 <- smallintset_rehash true 8 full_window hash_zero tt
               (next_capacity 32 (jl_array_nrows (pcache full_window))) 0;;
       insert_loop true 32 8 7 c1 hash_zero 17 tt).
Proof.
  apply (growth_policy (assertions:=true) 32 8 7 full_window hash_zero 17 tt).
  - by vm_compute.
  - reflexivity.
Defined.

(** ** C7 *)

(** C7: on a table whose capacity [sz] is zero or a power of two the
    lookup is the lookup of the specification: NotFound for [sz = 0];
    otherwise it walks from [h mod sz] in steps of one modulo [sz] over
    at most [maxProbe sz + 1] slots, where [maxProbe sz] is 16 for
    [sz ≤ 1024] and [sz / 64] otherwise, stops on returning to the
    start, answers NotFound at the first empty slot, [v - 1] at the
    first slot value [v] whose [v - 1] the equality accepts, and
    NotFound when the walk is over. *)
Theorem lookup_probe_bound {K D : Type} (cache : jl_array_t) (eq : smallintset_eq K D)
    (key : K) (data : D) (h : Z) :
  arr_ok cache → cap_ok (jl_array_nrows cache) →
  jl_smallintset_lookup cache eq key data h = Ret (lookup_spec cache eq key data h)
  ∧ max_probe (jl_array_nrows cache) = maxProbe (jl_array_nrows cache)
  ∧ (length (probe_walk h (jl_array_nrows cache))
     ≤ Z.to_nat (maxProbe (jl_array_nrows cache) + 1))%nat.
Proof.
  intros Hok Hcap. split; [|split; [apply max_probe_spec|apply probe_from_length]].
  destruct Hcap as [Hz|Hp2].
  - unfold jl_smallintset_lookup, lookup_spec. by rewrite Hz.
  - apply lookup_refines; [|done].
    destruct Hok as [?|Hnil]; [done|].
    apply is_pow2_pos in Hp2. unfold jl_array_nrows in Hp2. rewrite Hnil in Hp2.
    simpl in Hp2. lia.
Qed.

Lemma lookup_probe_bound_witness :
  jl_smallintset_lookup (pcache three_of_four) eq_id 6 tt 6
  = Ret (lookup_spec (pcache three_of_four) eq_id 6 tt 6)
  ∧ max_probe (jl_array_nrows (pcache three_of_four))
    = maxProbe (jl_array_nrows (pcache three_of_four))
  ∧ (length (probe_walk 6 (jl_array_nrows (pcache three_of_four)))
     ≤ Z.to_nat (maxProbe (jl_array_nrows (pcache three_of_four)) + 1))%nat.
Proof.
  apply (lookup_probe_bound (pcache three_of_four) eq_id 6 tt 6).
  - left. reflexivity.
  - right. exists 2. split; [lia|reflexivity].
Defined.

(** ** C8 *)

(** C8 fails on the code.  The one guard against a required value that
    is out of the domain is the [assert] inside the allocation: the
    allocation is refused exactly when assertions are checked and the
    required value is at least [2^31 - 1].  Where assertions are
    compiled out nothing aborts: the insertion of the index [2^32 + 6]
    into a 32-bit table returns, the slot holds 7, that is [2^32 + 7]
    cut to 32 bits, and the lookup of the index answers NotFound.  Where
    assertions are checked, the same insertion aborts, and so does the
    insertion of the index [2^31 - 2], which is below [2^31].  In either
    build the insertion of the index [2^31] into a 32-bit table with
    room allocates nothing and so meets no check. *)
Theorem out_of_domain_insert :
  (∀ (assertions : bool) (np len : Z),
     jl_alloc_int_1d assertions np len = Abort ↔ assertions = true ∧ 2 ^ 31 - 1 ≤ np)
  ∧ (∃ c', jl_smallintset_insert false 32 8 wide_table hash_id (2 ^ 32 + 6) tt = Ret c'
           ∧ jl_tparam0 (pcache c') = jl_uint32_type
           ∧ h2index (hash_id (2 ^ 32 + 6) tt) 32 = 6
           ∧ slot (jl_array_data (pcache c')) 6 = 7
           ∧ jl_smallintset_lookup (pcache c') eq_key (2 ^ 32 + 6) tt
               (hash_id (2 ^ 32 + 6) tt) = Ret (-1))
  ∧ jl_smallintset_insert true 32 8 wide_table hash_id (2 ^ 32 + 6) tt = Abort
  ∧ (2 ^ 31 - 2 < 2 ^ 31
     ∧ jl_smallintset_insert true 32 8 empty_set hash_id (2 ^ 31 - 2) tt = Abort)
  ∧ (∀ assertions : bool,
       ∃ c', jl_smallintset_insert assertions 32 8 wide_table hash_id (2 ^ 31) tt = Ret c'
             ∧ slot (jl_array_data (pcache c')) 0 = 2 ^ 31 + 1).
Proof.
  split; [intros assertions np len; apply alloc_abort_iff|].
  split; [eexists; split; [by vm_compute|]; by vm_compute|].
  split; [by vm_compute|].
  split; [split; [lia|by vm_compute]|].
  intros []; (eexists; split; [by vm_compute|reflexivity]).
Qed.

(** ** C9 *)

(** C9: an insertion and a rehash come to an end.  On a well-formed
    table of capacity zero or a power of two up to [2^56], with a
    baseline capacity [2^h], [1 ≤ h ≤ 62], the insertion of any index
    ends within 64 iterations of each of its loops; and a rehash from a
    starting capacity that is zero or a power of two up to [2^62], zero
    only for a table without entries (the insertion asks for the current
    capacity or a grown one), ends within 64 attempts.  Both end in
    success unless an allocation is refused, which needs assertions to
    be checked and a required value of at least [2^31 - 1]; the rehash
    then leaves a table of a capacity between the starting one and
    [2^62] that holds the old entries.  The retries end because the
    probe window grows with the capacity: at [2^62] slots it is longer
    than the number of entries. *)
Theorem insert_rehash_terminate {D : Type} (assertions : bool) (HT h : Z) (fuel : nat)
    (c : cache_ref) (hash : smallintset_hash D) (val : Z) (data : D) (newsz np : Z) :
  HT = 2 ^ h → 1 ≤ h ≤ 62 →
  wf_array (pcache c) → cap_ok (jl_array_nrows (pcache c)) →
  jl_array_nrows (pcache c) ≤ 2 ^ 56 →
  0 ≤ val → val + 1 < 2 ^ 64 →
  cap_ok newsz → newsz ≤ 2 ^ 62 →
  (newsz = 0 → entries (jl_array_data (pcache c)) = []) →
  64 ≤ Z.of_nat fuel →
  jl_smallintset_insert assertions HT fuel c hash val data ≠ OutOfFuel
  ∧ smallintset_rehash assertions fuel c hash data newsz np ≠ OutOfFuel
  ∧ (assertions = false ∨ max_slot (val + 1) (jl_array_data (pcache c)) < 0x7FFFFFFF →
     ∃ c', jl_smallintset_insert assertions HT fuel c hash val data = Ret c')
  ∧ (assertions = false ∨ max_slot np (jl_array_data (pcache c)) < 0x7FFFFFFF →
     ∃ c', smallintset_rehash assertions fuel c hash data newsz np = Ret c'
           ∧ newsz ≤ jl_array_nrows (pcache c') ≤ 2 ^ 62
           ∧ cap_ok (jl_array_nrows (pcache c'))
           ∧ entries (jl_array_data (pcache c')) ≡ₚ entries (jl_array_data (pcache c)))
  ∧ Z.of_nat (occupied (jl_array_data (pcache c))) < probe_len (2 ^ 62).
Proof.
  intros HHT Hh Hwf Hcap Hsz Hval0 Hval Hnewsz Hle Hzero Hfuel.
  pose proof (occupied_le (jl_array_data (pcache c)) (2 ^ 56) Hsz) as Hocc.
  split; [by apply (insert_halts HT h)|].
  split; [apply rehash_halts; (done || lia)|].
  split; [|split].
  - intros Hadm. apply (insert_terminates HT h); try done.
    destruct Hadm as [?|Hadm]; [by left|right]. by apply max_slot_Forall in Hadm.
  - intros Hadm. apply rehash_returns; (done || lia).
  - rewrite probe_len_top. lia.
Qed.

Lemma insert_rehash_terminate_witness :
  jl_smallintset_insert true 32 64 three_of_four hash_id 9 tt ≠ OutOfFuel
  ∧ smallintset_rehash true 64 three_of_four hash_id tt 2 0 ≠ OutOfFuel
  ∧ (true = false ∨ max_slot (9 + 1) (jl_array_data (pcache three_of_four)) < 0x7FFFFFFF →
     ∃ c', jl_smallintset_insert true 32 64 three_of_four hash_id 9 tt = Ret c')
  ∧ (true = false ∨ max_slot 0 (jl_array_data (pcache three_of_four)) < 0x7FFFFFFF →
     ∃ c', smallintset_rehash true 64 three_of_four hash_id tt 2 0 = Ret c'
           ∧ 2 ≤ jl_array_nrows (pcache c') ≤ 2 ^ 62
           ∧ cap_ok (jl_array_nrows (pcache c'))
           ∧ entries (jl_array_data (pcache c'))
             ≡ₚ entries (jl_array_data (pcache three_of_four)))
  ∧ Z.of_nat (occupied (jl_array_data (pcache three_of_four))) < probe_len (2 ^ 62).
Proof.
  apply (insert_rehash_terminate true 32 5 64 three_of_four hash_id 9 tt 2 0).
  - reflexivity.
  - lia.
  - left. split; [reflexivity|]. simpl. repeat constructor; lia.
  - right. exists 2. split; [lia|reflexivity].
  - by vm_compute.
  - lia.
  - by vm_compute.
  - right. exists 1. split; [lia|reflexivity].
  - by vm_compute.
  - intros H. discriminate H.
  - lia.
Defined.

(** ** C10 *)

(** C10: the direct placement leaves a table of capacity 0 or 1 as it is
    and reports failure, and the capacity the insertion then asks for is
    the baseline [2^h]; an insertion into an index set whose table is
    empty with at most one slot, or at the baseline capacity or above,
    ends with a table of at least the baseline capacity, and every table
    it publishes on the way that holds an entry has at least the
    baseline capacity. *)
Theorem small_tables_grow_first {assertions : bool} {D : Type} (HT h : Z) (fuel : nat)
    (c c' : cache_ref) (hash : smallintset_hash D) (val : Z) (data : D) :
  HT = 2 ^ h → 1 ≤ h →
  wf_array (pcache c) → cap_ok (jl_array_nrows (pcache c)) →
  small_or_baseline HT (pcache c) → 0 ≤ val < 2 ^ 63 →
  jl_smallintset_insert assertions HT fuel c hash val data = Ret c' →
  (∀ a hv val1, jl_array_nrows a ≤ 1 → smallintset_insert_ a hv val1 = Ret (false, a))
  ∧ (∀ sz, sz ≤ 1 → grow_newsz HT sz = HT)
  ∧ HT ≤ jl_array_nrows (pcache c')
  ∧ ∃ new, released c' = released c ++ new
           ∧ Forall (λ a, entries (jl_array_data a) ≠ [] → HT ≤ jl_array_nrows a) new.
Proof.
  intros HHT Hh Hwf Hcap Hsb Hval Hrun.
  split; [intros a hv val1; apply insert_small|].
  split.
  { intros sz Hsz. unfold grow_newsz.
    assert (2 ^ 1 ≤ HT) by (rewrite HHT; apply Z.pow_le_mono_r; lia).
    destruct (Z.ltb_spec sz HT); [done|lia]. }
  destruct (insert_caps HT h fuel c c' hash val data HHT Hh Hwf Hcap Hsb Hval Hrun)
    as (Hfin & new & Hnew & Hall).
  split; [done|]. exists new. split; [done|].
  eapply Forall_impl; [exact Hall|]. intros a [?|[_ Hnil]] Hne; [done|].
  by destruct Hne.
Qed.

Lemma small_tables_grow_first_witness :
  ∃ c', jl_smallintset_insert true 32 8 empty_set hash_id 3 tt = Ret c'
    ∧ (∀ a hv val1, jl_array_nrows a ≤ 1 → smallintset_insert_ a hv val1 = Ret (false, a))
    ∧ (∀ sz, sz ≤ 1 → grow_newsz 32 sz = 32)
    ∧ 32 ≤ jl_array_nrows (pcache c')
    ∧ ∃ new, released c' = released empty_set ++ new
             ∧ Forall (λ a, entries (jl_array_data a) ≠ [] → 32 ≤ jl_array_nrows a) new.
Proof.
  eexists. split; [by vm_compute|].
  apply (small_tables_grow_first (assertions:=true) 32 5 8 empty_set _ hash_id 3 tt).
  - reflexivity.
  - lia.
  - right. split; reflexivity.
  - left. reflexivity.
  - right. split; [by vm_compute|reflexivity].
  - lia.
  - by vm_compute.
Defined.

(** * Further properties of the code *)

(** ** What a lookup can answer *)

Lemma slot_entry (l : list Z) (p : Z) : slot l p ≠ 0 → slot l p ∈ entries l.
Proof.
  unfold slot, entries. intros Hne.
  destruct (l !! Z.to_nat p) as [v|] eqn:Hl; simpl in *; [|done].
  apply list_elem_of_filter. split; [done|]. by apply list_elem_of_lookup_2 in Hl.
Qed.

Section LookupSound.
Context {K D : Type} {assertions : bool}.
Implicit Types (eq : smallintset_eq K D) (key : K) (data : D).

Lemma lookup_loop_sound (n : nat) cache eq key data (hv sz maxprobe orig index iter r : Z) :
  lookup_loop n cache eq key data hv sz maxprobe orig index iter = Ret r →
  r = -1 ∨ (r + 1 ∈ entries (jl_array_data cache) ∧ eq r key data hv = true).
Proof.
  revert index iter. induction n as [|n IH]; intros index iter; [done|].
  cbn [lookup_loop]. destruct (int_eltype (jl_tparam0 cache)) eqn:Hty.
  2:{ unfold jl_intref_acquire. by destruct (jl_tparam0 cache). }
  rewrite jl_intref_acquire_int by done. cbn [bind].
  set (v := slot (jl_array_data cache) index).
  destruct (Z.eqb_spec v 0) as [|Hne]; [intros [= <-]; by left|].
  destruct (eq (v - 1) key data hv) eqn:Heq.
  - intros [= <-]. right. split; [|done].
    replace (v - 1 + 1) with v by lia. by apply slot_entry.
  - destruct (_ && _); [apply IH|intros [= <-]; by left].
Qed.

(** X1: a lookup that returns answers NotFound ([-1]) or the decoded
    index of a value stored in the table which the equality callback
    accepts; it invents no index. *)
Theorem lookup_sound cache eq key data (hv r : Z) :
  jl_smallintset_lookup cache eq key data hv = Ret r →
  r = -1 ∨ (r + 1 ∈ entries (jl_array_data cache) ∧ eq r key data hv = true).
Proof.
  unfold jl_smallintset_lookup. destruct (_ =? 0); [intros [= <-]; by left|].
  apply lookup_loop_sound.
Qed.

(** X2: a freshly allocated table answers NotFound to every lookup,
    whatever its capacity, the hash and the equality callback. *)
Theorem lookup_fresh eq key data (np len hv : Z) (a : jl_array_t) :
  jl_alloc_int_1d assertions np len = Ret a →
  jl_smallintset_lookup a eq key data hv = Ret (-1).
Proof.
  intros Halloc. destruct (alloc_props _ _ _ Halloc) as (Hty & Hdata & _).
  unfold jl_smallintset_lookup. destruct (_ =? 0); [done|].
  cbn [lookup_loop]. rewrite jl_intref_acquire_int by done. cbn [bind].
  assert (slot (jl_array_data a) (h2index hv (jl_array_nrows a)) = 0) as ->; [|done].
  rewrite Hdata. unfold slot.
  destruct (replicate _ _ !! _) as [v|] eqn:Hl; [|done].
  by apply lookup_replicate in Hl as [-> _].
Qed.


End LookupSound.

Lemma lookup_sound_witness :
  6 = -1 ∨ (6 + 1 ∈ entries (jl_array_data (pcache three_of_four)) ∧ eq_id 6 6 tt 6 = true).
Proof. apply (lookup_sound (pcache three_of_four) eq_id 6 tt 6 6). reflexivity. Defined.

Lemma lookup_fresh_witness :
  jl_smallintset_lookup (JlArray jl_uint16_type (replicate (Z.to_nat 32) 0)) eq_id 5 tt 5
  = Ret (-1).
Proof. apply (lookup_fresh (assertions:=true) eq_id 5 tt 300 32 5). reflexivity. Defined.

(** ** What a direct placement changes *)

Lemma scan_empty_first (l : list Z) (positions : list Z) (p : Z) :
  scan_empty l positions = Some p →
  ∃ k : nat, positions !! k = Some p ∧ slot l p = 0
    ∧ ∀ (j : nat) (q : Z), (j < k)%nat → positions !! j = Some q → slot l q ≠ 0.
Proof.
  induction positions as [|q0 rest IH]; simpl; [done|].
  case_decide as Hz.
  - intros [= ->]. exists O. split; [done|]. split; [done|]. intros j q Hj. lia.
  - intros Hs. destruct (IH Hs) as (k & Hk & Hp & Hbefore).
    exists (S k). split; [done|]. split; [done|].
    intros [|j] q Hj; simpl; [by intros [= <-]|]. apply Hbefore. lia.
Qed.

Lemma slot_insert_eq (l : list Z) (p w : Z) :
  0 ≤ p < Z.of_nat (length l) → slot (<[Z.to_nat p := w]> l) p = w.
Proof. intros Hp. unfold slot. rewrite list_lookup_insert_eq; [done|lia]. Qed.

Lemma insert_result (a a' : jl_array_t) (hv val1 : Z) (ok : bool) :
  int_eltype (jl_tparam0 a) = true → cap_ok (jl_array_nrows a) →
  smallintset_insert_ a hv val1 = Ret (ok, a') →
  (ok = false ∧ a' = a)
  ∨ (ok = true ∧ is_pow2 (jl_array_nrows a) ∧ 2 ≤ jl_array_nrows a
     ∧ ∃ p, scan_empty (jl_array_data a) (probe_positions hv (jl_array_nrows a)) = Some p
            ∧ 0 ≤ p < jl_array_nrows a ∧ a' = store a p val1).
Proof.
  intros Hty Hcap.
  destruct (decide (jl_array_nrows a ≤ 1)) as [Hs|Hs].
  { rewrite insert_small by done. intros [= <- <-]. by left. }
  destruct Hcap as [?|Hp2]; [lia|].
  rewrite insert_refines by (done || lia). unfold place.
  destruct (scan_empty _ _) as [p|] eqn:Hscan; [|intros [= <- <-]; by left].
  rewrite jl_intset_release_int by done. cbn [bind]. intros [= <- <-]. right.
  split; [done|]. split; [done|]. split; [lia|]. exists p.
  split; [done|]. split; [|done].
  apply scan_empty_Some in Hscan as [Hin _].
  pose proof (probe_positions_range hv (jl_array_nrows a) ltac:(lia)) as Hr.
  rewrite Forall_forall in Hr. by apply Hr.
Qed.

(** X4: a direct placement that reports failure leaves the table as it
    was; one that reports success has written one slot: a slot of the
    probe walk that was empty now holds [val1] cut to the width of the
    element type, and every other slot, the element type and the
    capacity are unchanged. *)
Theorem insert_frame (a a' : jl_array_t) (hv val1 : Z) (ok : bool) :
  int_eltype (jl_tparam0 a) = true → cap_ok (jl_array_nrows a) →
  smallintset_insert_ a hv val1 = Ret (ok, a') →
  (ok = false ∧ a' = a)
  ∨ (ok = true
     ∧ jl_tparam0 a' = jl_tparam0 a ∧ jl_array_nrows a' = jl_array_nrows a
     ∧ ∃ p, p ∈ probe_walk hv (jl_array_nrows a) ∧ 0 ≤ p < jl_array_nrows a
            ∧ slot (jl_array_data a) p = 0
            ∧ slot (jl_array_data a') p = val1 mod 2 ^ width (jl_tparam0 a)
            ∧ ∀ q, 0 ≤ q → q ≠ p → slot (jl_array_data a') q = slot (jl_array_data a) q).
Proof.
  intros Hty Hcap Hrun.
  destruct (insert_result _ _ _ _ _ Hty Hcap Hrun)
    as [?|(-> & Hp2 & Hsz & p & Hscan & Hp & ->)]; [by left|right].
  split; [done|]. split; [done|]. split; [apply store_nrows|].
  exists p. apply scan_empty_Some in Hscan as [Hin Hz].
  rewrite probe_walk_positions by lia.
  split; [done|]. split; [done|]. split; [done|]. unfold store. cbn [jl_array_data].
  split; [apply slot_insert_eq; unfold jl_array_nrows in Hp; lia|].
  intros q Hq Hne. apply slot_insert_ne; lia.
Qed.

Lemma insert_frame_witness :
  (true = false ∧ JlArray jl_uint8_type [3; 5; 7; 9] = pcache three_of_four)
  ∨ (true = true
     ∧ jl_tparam0 (JlArray jl_uint8_type [3; 5; 7; 9]) = jl_tparam0 (pcache three_of_four)
     ∧ jl_array_nrows (JlArray jl_uint8_type [3; 5; 7; 9])
       = jl_array_nrows (pcache three_of_four)
     ∧ ∃ p, p ∈ probe_walk 8 (jl_array_nrows (pcache three_of_four))
            ∧ 0 ≤ p < jl_array_nrows (pcache three_of_four)
            ∧ slot (jl_array_data (pcache three_of_four)) p = 0
            ∧ slot [3; 5; 7; 9] p = 9 mod 2 ^ width (jl_tparam0 (pcache three_of_four))
            ∧ ∀ q, 0 ≤ q → q ≠ p →
                slot [3; 5; 7; 9] q = slot (jl_array_data (pcache three_of_four)) q).
Proof.
  apply (insert_frame (pcache three_of_four) (JlArray jl_uint8_type [3; 5; 7; 9]) 8 9 true).
  - reflexivity.
  - right. exists 2. split; [lia|reflexivity].
  - reflexivity.
Defined.

(** ** Probe chains and lookups *)

Lemma found_at_insert_old (l positions : list Z) (p v w : Z) :
  found_at l positions v → v ≠ 0 → slot l p = 0 → 0 ≤ p →
  Forall (λ q, 0 ≤ q) positions →
  found_at (<[Z.to_nat p := w]> l) positions v.
Proof.
  intros (k & q & Hk & Hq & Hbefore) Hv Hp Hp0 Hpos.
  rewrite Forall_forall in Hpos.
  assert (∀ (j : nat) (q' : Z), positions !! j = Some q' → slot l q' ≠ 0 →
            slot (<[Z.to_nat p := w]> l) q' = slot l q') as Hsame.
  { intros j q' Hj Hne. apply slot_insert_ne; [done| |congruence].
    apply Hpos. by apply list_elem_of_lookup_2 in Hj. }
  exists k, q. split; [done|]. split.
  - rewrite (Hsame k q Hk); [done|congruence].
  - intros j q' Hj Hq'. rewrite (Hsame j q' Hq'); by apply (Hbefore j).
Qed.

Lemma found_at_insert_new (l positions : list Z) (p w : Z) :
  scan_empty l positions = Some p → 0 ≤ p < Z.of_nat (length l) →
  Forall (λ q, 0 ≤ q) positions →
  found_at (<[Z.to_nat p := w]> l) positions w.
Proof.
  intros Hscan Hp Hpos. rewrite Forall_forall in Hpos.
  destruct (scan_empty_first _ _ _ Hscan) as (k & Hk & Hz & Hbefore).
  exists k, p. split; [done|]. split; [by apply slot_insert_eq|].
  intros j q Hj Hq. specialize (Hbefore j q Hj Hq).
  rewrite slot_insert_ne; [done|lia| |congruence].
  apply Hpos. by apply list_elem_of_lookup_2 in Hq.
Qed.

Section Chains.
Context {K D : Type} {assertions : bool}.
Implicit Types (eq : smallintset_eq K D) (key : K) (data : D)
  (hash : smallintset_hash D).

Lemma scan_lookup_found (l positions : list Z) eq key data (hv v : Z) :
  found_at l positions v → v ≠ 0 → matches_only eq key data hv l v →
  scan_lookup l eq key data hv positions = v - 1.
Proof.
  intros (k & p & Hk & Hp & Hbefore) Hv [Hacc Hrej]. revert positions Hk Hbefore.
  induction k as [|k IH]; intros [|q rest] Hk Hbefore; try done; simpl in Hk.
  - injection Hk as ->. cbn [scan_lookup]. rewrite Hp.
    case_decide; [done|]. by rewrite Hacc.
  - cbn [scan_lookup].
    assert (slot l q ≠ 0) as Hq by (apply (Hbefore O); [lia|done]).
    case_decide; [done|].
    destruct (decide (slot l q = v)) as [->|Hne]; [by rewrite Hacc|].
    rewrite Hrej; [|by apply slot_entry|done].
    apply IH; [done|]. intros j q' Hj Hq'. apply (Hbefore (S j)); [lia|done].
Qed.

Lemma scan_lookup_insert (l positions : list Z) eq key data (hv p w r : Z) :
  scan_lookup l eq key data hv positions = r → r ≠ -1 →
  slot l p = 0 → 0 ≤ p → Forall (λ q, 0 ≤ q) positions →
  scan_lookup (<[Z.to_nat p := w]> l) eq key data hv positions = r.
Proof.
  intros Hr Hne Hp Hp0 Hpos. revert Hr.
  induction Hpos as [|q rest Hq Hrest IH]; simpl; [done|].
  case_decide as Hz; [congruence|].
  rewrite slot_insert_ne by (done || congruence).
  case_decide; [done|]. destruct (eq _ key data hv); [done|]. apply IH.
Qed.

(** X5: after a successful direct placement of [val1], a value that
    fits the width of the table, a lookup with the same hash and an
    equality callback that accepts the index of [val1] and rejects the
    index of every other entry returns that index. *)
Theorem insert_then_lookup (a a' : jl_array_t) eq key data (hv val1 : Z) :
  int_eltype (jl_tparam0 a) = true → cap_ok (jl_array_nrows a) →
  0 < val1 < 2 ^ width (jl_tparam0 a) →
  matches_only eq key data hv (jl_array_data a) val1 →
  smallintset_insert_ a hv val1 = Ret (true, a') →
  jl_smallintset_lookup a' eq key data hv = Ret (val1 - 1).
Proof.
  intros Hty Hcap Hval [Hacc Hrej] Hrun.
  destruct (insert_result _ _ _ _ _ Hty Hcap Hrun)
    as [[? _]|(_ & Hp2 & Hsz & p & Hscan & Hp & ->)]; [done|].
  pose proof (scan_empty_Some _ _ _ Hscan) as [_ Hz].
  destruct (store_props a p val1 Hp Hz Hval) as (Hty' & Hn' & Hperm).
  rewrite lookup_refines by (by rewrite ?Hty', ?Hn').
  unfold lookup_spec. rewrite Hn'. case_decide; [lia|].
  rewrite probe_walk_positions by lia. f_equal.
  pose proof (probe_positions_range hv (jl_array_nrows a) ltac:(lia)) as Hrange.
  apply scan_lookup_found; [| lia |].
  - unfold store. cbn [jl_array_data]. rewrite Z.mod_small by lia.
    apply found_at_insert_new; [done|unfold jl_array_nrows in Hp; lia|].
    eapply Forall_impl; [exact Hrange|]. simpl. lia.
  - split; [done|]. intros u Hu Hne. apply Hrej; [|done].
    rewrite Hperm in Hu. by apply elem_of_cons in Hu as [?|?].
Qed.

(** X6: a direct placement never hides an entry: a lookup that found
    an index before the placement finds the same index after it. *)
Theorem lookup_stable (a a' : jl_array_t) eq key data (hv hv' val1 r : Z) (ok : bool) :
  int_eltype (jl_tparam0 a) = true → cap_ok (jl_array_nrows a) →
  jl_smallintset_lookup a eq key data hv = Ret r → r ≠ -1 →
  smallintset_insert_ a hv' val1 = Ret (ok, a') →
  jl_smallintset_lookup a' eq key data hv = Ret r.
Proof.
  intros Hty Hcap Hlook Hr Hrun.
  destruct (insert_result _ _ _ _ _ Hty Hcap Hrun)
    as [[_ ->]|(_ & Hp2 & Hsz & p & Hscan & Hp & ->)]; [done|].
  pose proof (scan_empty_Some _ _ _ Hscan) as [_ Hz].
  rewrite lookup_refines in Hlook by done.
  rewrite lookup_refines by (by rewrite ?store_nrows).
  injection Hlook as Hlook. f_equal. revert Hlook.
  unfold lookup_spec. rewrite store_nrows. case_decide; [lia|].
  rewrite probe_walk_positions by lia. intros Hlook.
  unfold store. cbn [jl_array_data].
  apply scan_lookup_insert; [done|done|done|lia|].
  pose proof (probe_positions_range hv (jl_array_nrows a) ltac:(lia)) as Hrange.
  eapply Forall_impl; [exact Hrange|]. simpl. lia.
Qed.

Lemma placed_finds (a : jl_array_t) hash eq key data (v : Z) :
  int_eltype (jl_tparam0 a) = true → cap_ok (jl_array_nrows a) →
  placed hash data a → v ∈ entries (jl_array_data a) →
  matches_only eq key data (hash (v - 1) data) (jl_array_data a) v →
  jl_smallintset_lookup a eq key data (hash (v - 1) data) = Ret (v - 1).
Proof.
  intros Hty Hcap Hplaced Hv Hm.
  assert (v ≠ 0) as Hv0.
  { unfold entries in Hv. by apply list_elem_of_filter in Hv as [? _]. }
  destruct Hcap as [Hz|Hp2].
  { unfold jl_array_nrows in Hz. destruct (jl_array_data a); [|done].
    by apply elem_of_nil in Hv. }
  rewrite lookup_refines by done. f_equal.
  unfold lookup_spec. pose proof (is_pow2_pos _ Hp2). case_decide; [lia|].
  apply scan_lookup_found; [by apply Hplaced|done|done].
Qed.

End Chains.

(** ** The probe chains are kept *)

Section Placed.
Context {K D : Type} {assertions : bool}.
Implicit Types (eq : smallintset_eq K D) (key : K) (data : D)
  (hash : smallintset_hash D).

Lemma placed_store (a : jl_array_t) hash data (p val1 : Z) :
  is_pow2 (jl_array_nrows a) → placed hash data a →
  scan_empty (jl_array_data a)
    (probe_positions (hash (val1 - 1) data) (jl_array_nrows a)) = Some p →
  0 ≤ p < jl_array_nrows a → 0 < val1 < 2 ^ width (jl_tparam0 a) →
  placed hash data (store a p val1).
Proof.
  intros Hp2 Hplaced Hscan Hp Hval v Hv.
  pose proof (is_pow2_pos _ Hp2) as Hpos.
  pose proof (scan_empty_Some _ _ _ Hscan) as [_ Hz].
  destruct (store_props a p val1 Hp Hz Hval) as (_ & Hn' & Hperm).
  rewrite Hn'. rewrite Hperm in Hv. unfold store. cbn [jl_array_data].
  rewrite Z.mod_small by lia.
  assert (∀ h, Forall (λ q, 0 ≤ q) (probe_walk h (jl_array_nrows a))) as Hnn.
  { intros h. rewrite probe_walk_positions by lia.
    eapply Forall_impl; [apply probe_positions_range; lia|]. simpl. lia. }
  apply elem_of_cons in Hv as [->|Hv].
  - apply found_at_insert_new; [|unfold jl_array_nrows in Hp; lia|done].
    by rewrite probe_walk_positions by lia.
  - apply found_at_insert_old; [by apply Hplaced| |done|lia|done].
    unfold entries in Hv. by apply list_elem_of_filter in Hv as [? _].
Qed.

Lemma reinsert_placed (vals : list Z) hash data (newa newa' : jl_array_t) :
  int_eltype (jl_tparam0 newa) = true → cap_ok (jl_array_nrows newa) →
  Forall (λ v, 0 ≤ v < 2 ^ width (jl_tparam0 newa)) vals →
  placed hash data newa →
  reinsert vals hash data newa = Ret (Some newa') →
  placed hash data newa'.
Proof.
  revert newa. induction vals as [|v rest IH]; intros newa Hty Hcap Hvals Hplaced.
  { by intros [= <-]. }
  apply Forall_cons in Hvals as [Hv Hvals]. cbn [reinsert].
  case_decide as Hz; [by apply IH|].
  destruct (smallintset_insert_ newa (hash (v - 1) data) v) as [[ok a1]| |] eqn:Hins;
    cbn [bind]; [|done..].
  destruct (insert_result _ _ _ _ _ Hty Hcap Hins)
    as [[-> _]|(-> & Hp2 & Hsz & p & Hscan & Hp & ->)]; [done|].
  apply IH.
  - done.
  - rewrite store_nrows. by right.
  - done.
  - apply placed_store; (done || lia).
Qed.

Lemma build_placed (a newa : jl_array_t) hash data (np cap : Z) :
  wf_array a → cap_ok cap → Forall (λ v, v ≤ np) (jl_array_data a) →
  build assertions a hash data np cap = Ret (Some newa) →
  placed hash data newa.
Proof.
  intros Hwf Hcap Hle. unfold build.
  destruct (jl_alloc_int_1d assertions np cap) as [newa0| |] eqn:Halloc; cbn [bind]; [|done..].
  destruct (alloc_props _ _ _ Halloc) as (Hty0 & Hdata0 & Hw0).
  apply reinsert_placed; [done| | |].
  - unfold jl_array_nrows. rewrite Hdata0, length_replicate.
    pose proof (cap_ok_nonneg _ Hcap). by rewrite Z2Nat.id by lia.
  - exact (alloc_fits a newa0 np cap Hwf Hle Halloc).
  - intros v Hv. rewrite Hdata0, entries_replicate in Hv. by apply elem_of_nil in Hv.
Qed.

Lemma rehash_placed (fuel : nat) (c c' : cache_ref) hash data (newsz np : Z) :
  wf_array (pcache c) → cap_ok newsz →
  smallintset_rehash assertions fuel c hash data newsz np = Ret c' →
  placed hash data (pcache c').
Proof.
  intros Hwf Hcap Hrun.
  destruct (rehash_sound _ _ _ _ _ _ _ Hwf Hcap Hrun) as (k & _ & _ & Hb & _).
  eapply build_placed; [done|by apply cap_ok_attempt| |exact Hb].
  apply max_slot_le.
Qed.

(** X8: a rehash keeps every entry within reach: after it, a lookup
    with the hash of an index the old table held, and an equality
    callback that accepts it and rejects the other entries, returns that
    index, whatever the old table looked like inside. *)
Theorem rehash_then_lookup (fuel : nat) (c c' : cache_ref) hash eq key data
    (newsz np v : Z) :
  wf_array (pcache c) → cap_ok newsz →
  smallintset_rehash assertions fuel c hash data newsz np = Ret c' →
  v ∈ entries (jl_array_data (pcache c)) →
  matches_only eq key data (hash (v - 1) data) (jl_array_data (pcache c)) v →
  jl_smallintset_lookup (pcache c') eq key data (hash (v - 1) data) = Ret (v - 1).
Proof.
  intros Hwf Hcap Hrun Hv [Hacc Hrej].
  destruct (rehash_sound _ _ _ _ _ _ _ Hwf Hcap Hrun)
    as (k & _ & _ & _ & _ & Hperm & _ & Hty & Hn & _).
  apply (placed_finds (pcache c') hash); [done| | | |].
  - rewrite Hn. by apply cap_ok_attempt.
  - by apply (rehash_placed fuel c c' hash data newsz np).
  - by rewrite Hperm.
  - split; [done|]. intros u Hu. apply Hrej. by rewrite <- Hperm.
Qed.

End Placed.

(** ** What an insertion leaves behind *)

Lemma grow_ge (HT h sz : Z) :
  HT = 2 ^ h → 0 ≤ h → cap_ok sz →
  grow_newsz HT sz = 0 ∨ (HT ≤ grow_newsz HT sz ∧ sz ≤ grow_newsz HT sz).
Proof.
  intros -> Hh Hcap. unfold grow_newsz.
  assert (0 < 2 ^ h) by (apply Z.pow_pos_nonneg; lia).
  destruct (Z.ltb_spec sz (2 ^ h)) as [Hlt|Hge]; [right; lia|].
  destruct Hcap as [->|(m & Hm & ->)]; [lia|].
  assert (∀ s, 0 ≤ s →
    wrap (Z.shiftl (2 ^ m) s) = 0
    ∨ (2 ^ h ≤ wrap (Z.shiftl (2 ^ m) s) ∧ 2 ^ m ≤ wrap (Z.shiftl (2 ^ m) s))) as Hs.
  { intros s Hs. rewrite shift_pow2 by lia. case_decide; [right|by left].
    assert (2 ^ m ≤ 2 ^ (m + s)) by (apply Z.pow_le_mono_r; lia). lia. }
  destruct (_ || _); apply Hs; lia.
Qed.

Lemma store_wf (a : jl_array_t) (p v : Z) :
  wf_array a → int_eltype (jl_tparam0 a) = true → wf_array (store a p v).
Proof.
  intros [[_ Hr]|[Hany _]] Hty; [|by rewrite Hany in Hty].
  left. split; [done|]. unfold store. cbn [jl_tparam0 jl_array_data].
  apply Forall_insert; [done|]. apply Z.mod_pos_bound.
  apply Z.pow_pos_nonneg; [lia|]. by destruct (jl_tparam0 a).
Qed.

Lemma store_entries (a : jl_array_t) (p v : Z) :
  0 ≤ p < jl_array_nrows a → slot (jl_array_data a) p = 0 →
  entries (jl_array_data (store a p v))
  ≡ₚ (if decide (v mod 2 ^ width (jl_tparam0 a) = 0) then []
      else [v mod 2 ^ width (jl_tparam0 a)]) ++ entries (jl_array_data a).
Proof.
  intros Hp Hz. unfold store. cbn [jl_array_data].
  assert (jl_array_data a !! Z.to_nat p = Some 0) as Hl.
  { rewrite <- Hz. apply slot_lookup. unfold jl_array_nrows in Hp. lia. }
  case_decide as Hw.
  - rewrite Hw. by rewrite list_insert_id.
  - by apply entries_insert.
Qed.

Section InsertSound.
Context {D : Type} {assertions : bool}.
Implicit Types (hash : smallintset_hash D) (data : D).

Lemma growth_rehash_ge (HT h : Z) (rfuel : nat) (c c1 : cache_ref) hash data (hv val1 : Z) :
  HT = 2 ^ h → 1 ≤ h →
  wf_array (pcache c) → int_eltype (jl_tparam0 (pcache c)) = true →
  cap_ok (jl_array_nrows (pcache c)) →
  smallintset_insert_ (pcache c) hv val1 = Ret (false, pcache c) →
  smallintset_rehash assertions rfuel c hash data (grow_newsz HT (jl_array_nrows (pcache c))) 0
    = Ret c1 →
  HT ≤ jl_array_nrows (pcache c1)
  ∧ jl_array_nrows (pcache c) ≤ jl_array_nrows (pcache c1).
Proof.
  intros HHT Hh Hwf Hty Hcap Hfail Hre.
  assert (2 ≤ HT) as HHT2.
  { rewrite HHT. change 2 with (2 ^ 1). apply Z.pow_le_mono_r; lia. }
  destruct (grow_cap_ok HT h (jl_array_nrows (pcache c)) HHT ltac:(lia) Hcap) as [Hgcap _].
  destruct (rehash_sound _ _ _ _ _ _ _ Hwf Hgcap Hre)
    as (k & _ & _ & _ & _ & _ & _ & _ & Hn1 & Hge1 & Hc2 & _).
  destruct (grow_ge HT h (jl_array_nrows (pcache c)) HHT ltac:(lia) Hcap) as [Hg0|Hg]; [|lia].
  rewrite Hg0, attempt_cap_0 in Hn1.
  destruct Hc2 as [Hnil|?]; [|lia].
  unfold grow_newsz in Hg0.
  destruct (Z.ltb_spec (jl_array_nrows (pcache c)) HT); [lia|].
  by destruct (insert_full_occupied _ _ _ Hty Hcap ltac:(lia) Hfail).
Qed.

Lemma insert_loop_sound (HT h : Z) (rfuel fuel : nat) (c c' : cache_ref) hash
    (val : Z) data :
  HT = 2 ^ h → 1 ≤ h →
  wf_array (pcache c) → int_eltype (jl_tparam0 (pcache c)) = true →
  cap_ok (jl_array_nrows (pcache c)) →
  insert_loop assertions HT rfuel fuel c hash val data = Ret c' →
  ∃ a p,
    wf_array a ∧ int_eltype (jl_tparam0 a) = true
    ∧ is_pow2 (jl_array_nrows a) ∧ 2 ≤ jl_array_nrows a
    ∧ entries (jl_array_data a) ≡ₚ entries (jl_array_data (pcache c))
    ∧ jl_array_nrows (pcache c) ≤ jl_array_nrows a
    ∧ (placed hash data (pcache c) → placed hash data a)
    ∧ scan_empty (jl_array_data a)
        (probe_positions (hash val data) (jl_array_nrows a)) = Some p
    ∧ 0 ≤ p < jl_array_nrows a
    ∧ pcache c' = store a p (wrap (val + 1))
    ∧ ((a = pcache c ∧ released c' = released c)
       ∨ ∃ mid, released c' = released c ++ mid ++ [a]).
Proof.
  intros HHT Hh. revert c.
  induction fuel as [|fuel IH]; intros c Hwf Hty Hcap Hrun; [done|].
  cbn [insert_loop] in Hrun.
  destruct (smallintset_insert_ (pcache c) (hash val data) (wrap (val + 1)))
    as [[ok a1]| |] eqn:Hins; cbn [bind] in Hrun; [|done..].
  destruct (insert_result _ _ _ _ _ Hty Hcap Hins)
    as [[-> ->]|(-> & Hp2 & Hsz & p & Hscan & Hp & ->)].
  - cbn [pcache released] in Hrun.
    destruct (smallintset_rehash assertions _ _ _ _ _ _) as [c1| |] eqn:Hre; cbn [bind] in Hrun;
      try done.
    assert (smallintset_rehash assertions rfuel c hash data
              (grow_newsz HT (jl_array_nrows (pcache c))) 0 = Ret c1) as Hre'
      by (by destruct c).
    destruct (growth_rehash_ge HT h rfuel c c1 hash data _ _ HHT Hh Hwf Hty Hcap Hins Hre')
      as [_ Hge].
    destruct (grow_cap_ok HT h (jl_array_nrows (pcache c)) HHT ltac:(lia) Hcap)
      as [Hgcap _].
    destruct (rehash_sound _ _ _ _ _ _ _ Hwf Hgcap Hre')
      as (k & _ & _ & _ & Hrel & Hperm & Hwf1 & Hty1 & Hn1 & _).
    pose proof (rehash_placed _ _ _ hash data _ _ Hwf Hgcap Hre') as Hpl1.
    destruct (IH c1) as (a & p & Hwfa & Htya & Hp2 & Hsz & Hperma & Hnra & Hpla
                         & Hscan & Hp & Hfin & Hrela); [done|done| |done|].
    { rewrite Hn1. by apply cap_ok_attempt. }
    exists a, p. do 4 (split; [done|]). split; [by rewrite Hperma|].
    split; [lia|]. split; [intros _; by apply Hpla|]. do 3 (split; [done|]).
    right. destruct Hrela as [[-> Hrel']|[mid Hrel']].
    + exists []. by rewrite Hrel', Hrel.
    + exists (pcache c1 :: mid). rewrite Hrel', Hrel. by rewrite <- !app_assoc.
  - injection Hrun as <-. exists (pcache c), p. cbn [pcache released].
    do 4 (split; [done|]). split; [done|]. split; [lia|]. split; [done|].
    do 3 (split; [done|]). by left.
Qed.

Lemma insert_sound (HT h : Z) (fuel : nat) (c c' : cache_ref) hash (val : Z) data :
  HT = 2 ^ h → 1 ≤ h →
  wf_array (pcache c) → cap_ok (jl_array_nrows (pcache c)) → 0 ≤ val < 2 ^ 63 →
  jl_smallintset_insert assertions HT fuel c hash val data = Ret c' →
  ∃ a p,
    wf_array a ∧ int_eltype (jl_tparam0 a) = true
    ∧ is_pow2 (jl_array_nrows a) ∧ 2 ≤ jl_array_nrows a
    ∧ entries (jl_array_data a) ≡ₚ entries (jl_array_data (pcache c))
    ∧ jl_array_nrows (pcache c) ≤ jl_array_nrows a
    ∧ (placed hash data (pcache c) → placed hash data a)
    ∧ scan_empty (jl_array_data a)
        (probe_positions (hash val data) (jl_array_nrows a)) = Some p
    ∧ 0 ≤ p < jl_array_nrows a
    ∧ pcache c' = store a p (val + 1)
    ∧ ((a = pcache c ∧ released c' = released c)
       ∨ ∃ mid, released c' = released c ++ mid ++ [a]).
Proof.
  intros HHT Hh Hwf Hcap Hval. unfold jl_smallintset_insert.
  assert (wrap (val + 1) = val + 1) as Hwrap by (apply Z.mod_small; lia).
  assert (∃ mx, jl_max_int (pcache c) = Ret mx
                ∧ (val + 1 ≤ mx → int_eltype (jl_tparam0 (pcache c)) = true))
    as (mx & -> & Hmx).
  { unfold jl_max_int. destruct Hwf as [[Hty _]|[-> _]]; [|exists 0; split; [done|lia]].
    destruct (jl_tparam0 (pcache c)); try done; eexists; by split. }
  cbn [bind]. rewrite Hwrap. destruct (Z.gtb_spec (val + 1) mx) as [Hgt|Hle].
  - destruct (smallintset_rehash assertions _ _ _ _ _ _) as [c1| |] eqn:Hre; cbn [bind]; try done.
    destruct (rehash_sound _ _ _ _ _ _ _ Hwf Hcap Hre)
      as (k & _ & _ & _ & Hrel & Hperm & Hwf1 & Hty1 & Hn1 & Hge1 & _).
    pose proof (rehash_placed _ _ _ hash data _ _ Hwf Hcap Hre) as Hpl1.
    intros Hrun.
    assert (cap_ok (jl_array_nrows (pcache c1))) as Hcap1
      by (rewrite Hn1; by apply cap_ok_attempt).
    destruct (insert_loop_sound HT h _ _ c1 c' hash val data HHT Hh Hwf1 Hty1 Hcap1 Hrun)
      as (a & p & Hwfa & Htya & Hp2 & Hsz & Hperma & Hnra & Hpla
          & Hscan & Hp & Hfin & Hrela).
    rewrite Hwrap in Hfin.
    exists a, p. do 4 (split; [done|]). split; [by rewrite Hperma|].
    split; [lia|]. split; [intros _; by apply Hpla|]. do 3 (split; [done|]).
    right. destruct Hrela as [[-> Hrel']|[mid Hrel']].
    + exists []. by rewrite Hrel', Hrel.
    + exists (pcache c1 :: mid). rewrite Hrel', Hrel. by rewrite <- !app_assoc.
  - cbn [bind]. intros Hrun.
    destruct (insert_loop_sound HT h _ _ c c' hash val data HHT Hh Hwf (Hmx Hle) Hcap Hrun)
      as (a & p & H). rewrite Hwrap in H. by exists a, p.
Qed.

End InsertSound.

Lemma int_width_ge_8 (t : jl_eltype) : int_eltype t = true → 2 ^ 8 ≤ 2 ^ width t.
Proof. by destruct t. Qed.

Section InsertProperties.
Context {K D : Type} {assertions : bool}.
Implicit Types (eq : smallintset_eq K D) (key : K) (data : D)
  (hash : smallintset_hash D).

Lemma insert_entries (HT h : Z) (fuel : nat) (c c' : cache_ref) hash
    (val : Z) data :
  HT = 2 ^ h → 1 ≤ h →
  wf_array (pcache c) → cap_ok (jl_array_nrows (pcache c)) → 0 ≤ val < 2 ^ 63 →
  jl_smallintset_insert assertions HT fuel c hash val data = Ret c' →
  wf_array (pcache c') ∧ int_eltype (jl_tparam0 (pcache c')) = true
  ∧ is_pow2 (jl_array_nrows (pcache c'))
  ∧ jl_array_nrows (pcache c) ≤ jl_array_nrows (pcache c')
  ∧ entries (jl_array_data (pcache c'))
    ≡ₚ (if decide ((val + 1) mod 2 ^ width (jl_tparam0 (pcache c')) = 0) then []
        else [(val + 1) mod 2 ^ width (jl_tparam0 (pcache c'))])
       ++ entries (jl_array_data (pcache c))
  ∧ (∃ new, released c' = released c ++ new)
  ∧ (released c' = released c →
     jl_tparam0 (pcache c') = jl_tparam0 (pcache c)
     ∧ jl_array_nrows (pcache c') = jl_array_nrows (pcache c)).
Proof.
  intros HHT Hh Hwf Hcap Hval Hrun.
  destruct (insert_sound HT h fuel c c' hash val data HHT Hh Hwf Hcap Hval Hrun)
    as (a & p & Hwfa & Htya & Hp2 & Hsz & Hperm & Hnr & _ & Hscan & Hp & -> & Hrel).
  pose proof (scan_empty_Some _ _ _ Hscan) as [_ Hz].
  split; [by apply store_wf|]. split; [done|].
  rewrite store_nrows. split; [done|]. split; [done|]. split.
  { rewrite store_entries by done. cbn [store jl_tparam0]. by rewrite Hperm. }
  split.
  - destruct Hrel as [[_ ->]|[mid ->]]; [exists []; by rewrite app_nil_r|by eexists].
  - intros Hsame. destruct Hrel as [[-> _]|[mid Hrel]]; [done|].
    rewrite Hsame in Hrel. apply (f_equal length) in Hrel.
    rewrite !length_app in Hrel. simpl in Hrel. lia.
Qed.

Lemma insert_placed_found (HT h : Z) (fuel : nat) (c c' : cache_ref) hash eq
    (val : Z) data :
  HT = 2 ^ h → 1 ≤ h →
  wf_array (pcache c) → cap_ok (jl_array_nrows (pcache c)) →
  placed hash data (pcache c) → 0 ≤ val →
  jl_smallintset_insert assertions HT fuel c hash val data = Ret c' →
  val + 1 < 2 ^ width (jl_tparam0 (pcache c')) →
  placed hash data (pcache c')
  ∧ entries (jl_array_data (pcache c')) ≡ₚ (val + 1) :: entries (jl_array_data (pcache c))
  ∧ ∀ key v, v ∈ (val + 1) :: entries (jl_array_data (pcache c)) →
      matches_only eq key data (hash (v - 1) data) (jl_array_data (pcache c')) v →
      jl_smallintset_lookup (pcache c') eq key data (hash (v - 1) data) = Ret (v - 1).
Proof.
  intros HHT Hh Hwf Hcap Hplaced Hval0 Hrun Hfit.
  assert (val < 2 ^ 63) as Hval.
  { assert (2 ^ width (jl_tparam0 (pcache c')) ≤ 2 ^ 32); [|lia].
    apply Z.pow_le_mono_r; [lia|]. by destruct (jl_tparam0 (pcache c')). }
  destruct (insert_sound HT h fuel c c' hash val data HHT Hh Hwf Hcap ltac:(lia) Hrun)
    as (a & p & Hwfa & Htya & Hp2 & Hsz & Hperm & Hnr & Hpla & Hscan & Hp & Hc' & Hrel).
  rewrite Hc' in Hfit |- *. cbn [store jl_tparam0] in Hfit.
  pose proof (scan_empty_Some _ _ _ Hscan) as [_ Hz].
  destruct (store_props a p (val + 1) Hp Hz ltac:(lia)) as (Hty' & Hn' & Hperm').
  assert (placed hash data (store a p (val + 1))) as Hpl'.
  { apply placed_store; [done|by apply Hpla| |done|lia].
    by replace (val + 1 - 1) with val by lia. }
  split; [done|]. split; [by rewrite Hperm', Hperm|].
  intros key v Hv Hm. apply (placed_finds _ hash); [by rewrite Hty'| |done| |done].
  - rewrite Hn'. by right.
  - by rewrite Hperm', Hperm.
Qed.

End InsertProperties.

Section InsertMany.
Context {D : Type} {assertions : bool}.
Implicit Types (data : D) (hash : smallintset_hash D).

Lemma insert_many_inv (HT h : Z) (fuel : nat) (vals : list Z) (c c' : cache_ref)
    hash data :
  HT = 2 ^ h → 1 ≤ h →
  wf_array (pcache c) → cap_ok (jl_array_nrows (pcache c)) →
  placed hash data (pcache c) →
  Forall (λ v, 0 ≤ v ≤ 254) vals →
  insert_many assertions HT fuel c hash data vals = Ret c' →
  wf_array (pcache c') ∧ cap_ok (jl_array_nrows (pcache c'))
  ∧ placed hash data (pcache c')
  ∧ (vals ≠ [] → int_eltype (jl_tparam0 (pcache c')) = true)
  ∧ entries (jl_array_data (pcache c'))
    ≡ₚ ((λ v, v + 1) <$> vals) ++ entries (jl_array_data (pcache c)).
Proof.
  intros HHT Hh. revert c.
  induction vals as [|val rest IH]; intros c Hwf Hcap Hplaced Hvals Hrun.
  { injection Hrun as <-. by repeat split. }
  apply Forall_cons in Hvals as [Hval Hrest]. cbn [insert_many] in Hrun.
  destruct (jl_smallintset_insert assertions HT fuel c hash val data) as [c1| |] eqn:Hins;
    cbn [bind] in Hrun; [|done..].
  destruct (insert_entries HT h fuel c c1 hash val data HHT Hh Hwf Hcap
              ltac:(lia) Hins) as (Hwf1 & Hty1 & Hp21 & _).
  pose proof (int_width_ge_8 _ Hty1) as Hw.
  destruct (insert_placed_found (K:=unit) HT h fuel c c1 hash (λ _ _ _ _, true) val data
              HHT Hh Hwf Hcap Hplaced ltac:(lia) Hins ltac:(lia))
    as (Hpl1 & Hperm1 & _).
  destruct (IH c1 Hwf1 ltac:(by right) Hpl1 Hrest Hrun)
    as (Hwf' & Hcap' & Hpl' & Hty' & Hperm').
  do 3 (split; [done|]). split.
  - intros _. destruct rest as [|v rest]; [by injection Hrun as <-|]. by apply Hty'.
  - rewrite Hperm', Hperm1. cbn [fmap list_fmap]. simpl.
    by rewrite Permutation_middle.
Qed.

(** X11: a sequence of insertions of indices up to 254, starting from a
    table whose entries sit on their probe chains (the empty index set
    is one), leaves a table in which a lookup with the hash of any of
    the inserted indices, and with the equality callback that accepts
    the equal index only, returns that index. *)
Theorem insert_many_found (HT h : Z) (fuel : nat) (vals : list Z) (c c' : cache_ref)
    hash (eq : smallintset_eq Z D) data (v : Z) :
  HT = 2 ^ h → 1 ≤ h →
  wf_array (pcache c) → cap_ok (jl_array_nrows (pcache c)) →
  placed hash data (pcache c) →
  Forall (λ v, 0 ≤ v ≤ 254) vals →
  (∀ i key hv, eq i key data hv = bool_decide (i = key)) →
  insert_many assertions HT fuel c hash data vals = Ret c' →
  v ∈ vals →
  jl_smallintset_lookup (pcache c') eq v data (hash v data) = Ret v.
Proof.
  intros HHT Hh Hwf Hcap Hplaced Hvals Heq Hrun Hv.
  destruct (insert_many_inv HT h fuel vals c c' hash data HHT Hh Hwf Hcap Hplaced Hvals Hrun)
    as (Hwf' & Hcap' & Hpl' & Hty' & Hperm').
  pose proof (placed_finds (pcache c') hash eq v data (v + 1)) as Hfound.
  replace (v + 1 - 1) with v in Hfound by lia.
  apply Hfound; [|done|done| |].
  - apply Hty'. intros ->. by apply elem_of_nil in Hv.
  - rewrite Hperm'. apply elem_of_app. left. apply list_elem_of_fmap. by exists v.
  - split; [rewrite Heq; apply bool_decide_eq_true_2; lia|].
    intros u _ Hne. rewrite Heq. apply bool_decide_eq_false_2. lia.
Qed.

End InsertMany.

(** ** Small tables and the first insertion *)

Lemma alloc_class {assertions : bool} (np len : Z) :
  np < 0x7FFFFFFF →
  ∃ t, strict_class np = Some t ∧ int_eltype t = true
       ∧ jl_alloc_int_1d assertions np len = Ret (JlArray t (replicate (Z.to_nat len) 0)).
Proof.
  intros Hnp. unfold strict_class, jl_alloc_int_1d, maxValue. cbn [find width].
  destruct (Z.ltb_spec np 0xFF);
    [|destruct (Z.ltb_spec np 0xFFFF); [|destruct (Z.ltb_spec np 0x7FFFFFFF); [|lia]]];
    repeat (case_bool_decide; try lia); destruct assertions; eexists; by repeat split.
Qed.


Lemma filter_all_Forall (P : Z → Prop) `{!∀ x, Decision (P x)} (l : list Z) :
  length (filter P l) = length l → Forall P l.
Proof.
  induction l as [|x l IH]; [constructor|].
  rewrite filter_cons. pose proof (length_filter P l).
  case_decide; simpl; intros Hlen; [constructor; [done|apply IH; lia]|lia].
Qed.

Lemma probe_len_small (sz : Z) : 1 ≤ sz ≤ 16 → probe_len sz = sz.
Proof. intros H. unfold probe_len, maxProbe. case_decide; lia. Qed.

(** X12: in a table of 2, 4, 8 or 16 slots the probe walk covers the
    whole table, so the direct placement reports failure exactly when no
    slot is empty. *)
Theorem small_table_full_iff (a : jl_array_t) (hv val1 : Z) :
  int_eltype (jl_tparam0 a) = true → is_pow2 (jl_array_nrows a) →
  2 ≤ jl_array_nrows a ≤ 16 →
  smallintset_insert_ a hv val1 = Ret (false, a)
  ↔ Forall (λ v, v ≠ 0) (jl_array_data a).
Proof.
  intros Hty Hp2 Hsz. split.
  - intros Hrun.
    destruct (insert_cases a hv val1 Hty ltac:(by right))
      as [[_ Hfull]|(p & _ & _ & _ & Hok)]; [|by rewrite Hok in Hrun].
    destruct Hfull as [?|Hfull]; [lia|].
    rewrite probe_len_small in Hfull by lia.
    apply (filter_all_Forall (λ v, v ≠ 0)). unfold occupied, jl_array_nrows in *.
    pose proof (length_filter (λ v, v ≠ 0) (jl_array_data a)). lia.
  - intros Hall. rewrite insert_refines by (done || lia). unfold place.
    destruct (scan_empty _ _) as [p|] eqn:Hscan; [|done].
    apply scan_empty_Some in Hscan as [Hin Hz].
    pose proof (probe_positions_range hv (jl_array_nrows a) ltac:(lia)) as Hr.
    rewrite Forall_forall in Hr, Hall. specialize (Hr p Hin). exfalso.
    apply (Hall 0); [|done]. rewrite <- Hz. unfold slot.
    destruct (lookup_lt_is_Some_2 (jl_array_data a) (Z.to_nat p)) as [v Hv];
      [unfold jl_array_nrows in Hr; lia|].
    rewrite Hv. simpl. by apply list_elem_of_lookup_2 in Hv.
Qed.

Lemma small_table_full_iff_witness :
  smallintset_insert_ (JlArray jl_uint8_type [3; 5; 7; 9]) 8 11
  = Ret (false, JlArray jl_uint8_type [3; 5; 7; 9])
  ↔ Forall (λ v, v ≠ 0) (jl_array_data (JlArray jl_uint8_type [3; 5; 7; 9])).
Proof.
  apply (small_table_full_iff (JlArray jl_uint8_type [3; 5; 7; 9]) 8 11).
  - reflexivity.
  - exists 2. split; [lia|reflexivity].
  - by vm_compute.
Defined.

Section FirstInsert.
Context {D : Type} {assertions : bool}.
Implicit Types (data : D) (hash : smallintset_hash D).

Lemma scan_empty_fresh (h sz : Z) (n : nat) :
  1 ≤ sz → scan_empty (replicate n 0) (probe_positions h sz) = Some (h mod sz).
Proof.
  intros Hsz. unfold probe_positions.
  pose proof (probe_len_bounds sz Hsz).
  rewrite seqZ_cons by lia. cbn [fmap list_fmap scan_empty].
  rewrite Z.add_0_r, Z.mod_mod by lia.
  assert (slot (replicate n 0) (h mod sz) = 0) as ->; [|by case_decide].
  unfold slot. destruct (replicate _ _ !! _) as [v|] eqn:Hl; [|done].
  by apply lookup_replicate in Hl as [-> _].
Qed.

Lemma rehash_no_slots (fuel : nat) (c : cache_ref) hash data (newsz np : Z)
    (newa : jl_array_t) :
  jl_array_data (pcache c) = [] → jl_alloc_int_1d assertions np newsz = Ret newa →
  smallintset_rehash assertions (S fuel) c hash data newsz np
  = Ret (CacheRef newa (released c ++ [newa])).
Proof.
  intros Hnil Halloc. unfold smallintset_rehash, jl_array_nrows. rewrite Hnil.
  change (Z.to_nat (Z.of_nat (length (@nil Z)))) with O.
  cbn [rehash_np bind rehash_loop]. rewrite Halloc.
  cbn [bind rehash_fill]. by change (0 =? Z.of_nat (length (@nil Z))) with true.
Qed.

Lemma insert_loop_full (HT : Z) (rfuel fuel : nat) (c : cache_ref) hash (val : Z) data :
  smallintset_insert_ (pcache c) (hash val data) (wrap (val + 1)) = Ret (false, pcache c) →
  insert_loop assertions HT rfuel (S fuel) c hash val data
  = (c1 <- smallintset_rehash assertions rfuel c hash data
             (grow_newsz HT (jl_array_nrows (pcache c))) 0;;
     insert_loop assertions HT rfuel fuel c1 hash val data).
Proof. intros Hfull. cbn [insert_loop]. rewrite Hfull. by destruct c. Qed.

Lemma insert_loop_room (HT : Z) (rfuel fuel : nat) (c : cache_ref) hash (val : Z) data
    (a' : jl_array_t) :
  smallintset_insert_ (pcache c) (hash val data) (wrap (val + 1)) = Ret (true, a') →
  insert_loop assertions HT rfuel (S fuel) c hash val data = Ret (CacheRef a' (released c)).
Proof. intros Hok. cbn [insert_loop]. by rewrite Hok. Qed.

(** X13: the first insertion into the empty index set publishes an
    empty table of the class chosen for [val + 1] and then an 8-bit
    table of the baseline capacity, and ends with that 8-bit table
    holding [val + 1] cut to eight bits in the slot [hash mod capacity];
    an index of 255 or more is therefore not stored as it is. *)
Theorem first_insert (HT h : Z) (fuel : nat) hash (val : Z) data :
  HT = 2 ^ h → 1 ≤ h → 0 ≤ val → val + 1 < 0x7FFFFFFF → (2 ≤ fuel)%nat →
  ∃ t, strict_class (val + 1) = Some t
    ∧ jl_smallintset_insert assertions HT fuel empty_set hash val data
      = Ret (CacheRef
               (JlArray jl_uint8_type
                  (<[Z.to_nat (hash val data mod HT) := (val + 1) mod 2 ^ 8]>
                     (replicate (Z.to_nat HT) 0)))
               [JlArray t []; JlArray jl_uint8_type (replicate (Z.to_nat HT) 0)]).
Proof.
  intros HHT Hh Hval0 Hval Hfuel.
  destruct fuel as [|[|fuel]]; [lia|lia|].
  assert (2 ≤ HT) as HHT2.
  { rewrite HHT. change 2 with (2 ^ 1). apply Z.pow_le_mono_r; lia. }
  destruct (alloc_class (assertions:=assertions) (val + 1) 0 Hval) as (t & Ht & _ & Halloc).
  exists t. split; [done|].
  unfold jl_smallintset_insert.
  assert (wrap (val + 1) = val + 1) as Hwrap by (apply Z.mod_small; lia).
  rewrite Hwrap.
  change (jl_max_int (pcache empty_set)) with (@Ret Z 0). cbn [bind].
  destruct (Z.gtb_spec (val + 1) 0); [|lia].
  rewrite (rehash_no_slots _ empty_set _ _ _ _ _ eq_refl Halloc). cbn [bind].
  change (replicate (Z.to_nat 0) 0) with (@nil Z).
  rewrite insert_loop_full by (rewrite insert_small; [done|by vm_compute]).
  cbn [pcache released empty_set app].
  assert (grow_newsz HT (jl_array_nrows (JlArray t [])) = HT) as ->.
  { unfold grow_newsz. change (jl_array_nrows (JlArray t [])) with 0.
    by destruct (Z.ltb_spec 0 HT); [|lia]. }
  set (a := JlArray jl_uint8_type (replicate (Z.to_nat HT) 0)).
  rewrite (rehash_no_slots _ (CacheRef (JlArray t []) [JlArray t []]) _ _ HT 0 a eq_refl eq_refl).
  cbn [bind released app].
  assert (jl_array_nrows a = HT) as Hn.
  { unfold a, jl_array_nrows. cbn [jl_array_data]. rewrite length_replicate. lia. }
  erewrite insert_loop_room; [done|]. cbn [pcache]. rewrite Hwrap.
  rewrite insert_refines; [|done|rewrite Hn, HHT; exists h; split; [lia|done]|lia].
  unfold place. rewrite Hn. unfold a at 1. cbn [jl_array_data].
  by rewrite scan_empty_fresh by lia.
Qed.

End FirstInsert.

Lemma first_insert_witness :
  ∃ t, strict_class (300 + 1) = Some t
    ∧ jl_smallintset_insert true 32 8 empty_set hash_id 300 tt
      = Ret (CacheRef
               (JlArray jl_uint8_type
                  (<[Z.to_nat (hash_id 300 tt mod 32) := (300 + 1) mod 2 ^ 8]>
                     (replicate (Z.to_nat 32) 0)))
               [JlArray t []; JlArray jl_uint8_type (replicate (Z.to_nat 32) 0)]).
Proof.
  apply (first_insert (assertions:=true) 32 5 8 hash_id 300 tt); [reflexivity|lia|lia|lia|lia].
Defined.

(** ** Insertions that find room *)

Lemma max_slot_id (l : list Z) (np : Z) : Forall (λ v, v ≤ np) l → max_slot np l = np.
Proof.
  induction 1 as [|v l Hv Hl IH]; [done|].
  unfold max_slot in *. simpl. by rewrite Z.max_l by lia.
Qed.

Lemma wf_le_max_int (a : jl_array_t) (mx : Z) :
  wf_array a → jl_max_int a = Ret mx → Forall (λ v, v ≤ mx) (jl_array_data a).
Proof.
  intros [[Hty Hr]|[_ ->]] Hmx; [|constructor].
  eapply Forall_impl; [exact Hr|]. intros v Hv. simpl in Hv.
  unfold jl_max_int in Hmx. destruct (jl_tparam0 a); try done;
    injection Hmx as <-; simpl in Hv; lia.
Qed.

Section Room.
Context {K D : Type} {assertions : bool}.
Implicit Types (eq : smallintset_eq K D) (key : K) (data : D)
  (hash : smallintset_hash D).

Lemma build_type (a newa : jl_array_t) hash data (np cap : Z) :
  wf_array a → cap_ok cap → Forall (λ v, v ≤ np) (jl_array_data a) →
  np < 0x7FFFFFFF →
  build assertions a hash data np cap = Ret (Some newa) →
  strict_class np = Some (jl_tparam0 newa).
Proof.
  intros Hwf Hcap Hle Hnp. unfold build.
  destruct (alloc_class (assertions:=assertions) np cap Hnp) as (t & Ht & Hty & Halloc).
  rewrite Halloc. cbn [bind].
  set (newa0 := JlArray t (replicate (Z.to_nat cap) 0)).
  destruct (reinsert_props (jl_array_data a) hash data newa0) as (r & -> & Hr).
  - done.
  - unfold newa0, jl_array_nrows. cbn [jl_array_data]. rewrite length_replicate.
    pose proof (cap_ok_nonneg _ Hcap). by rewrite Z2Nat.id by lia.
  - exact (alloc_fits a newa0 np cap Hwf Hle Halloc).
  - intros [= ->]. destruct Hr as (-> & _). by rewrite Ht.
Qed.

(** X14: a rehash that returns publishes a table whose element type is
    the narrowest class strictly above its required value (the largest
    of [np] and the stored values), whose capacity is zero or a power of
    two and at least the capacity asked for, whose values are all
    strictly below the largest value of the element type, and whose
    entries sit on their probe chains.  Where assertions are compiled
    out this is so for a required value below [2^31 - 1], the values the
    assertion admits. *)
Theorem rehash_shape (fuel : nat) (c c' : cache_ref) hash data (newsz np : Z) :
  wf_array (pcache c) → cap_ok newsz →
  assertions = true ∨ max_slot np (jl_array_data (pcache c)) < 0x7FFFFFFF →
  smallintset_rehash assertions fuel c hash data newsz np = Ret c' →
  strict_class (max_slot np (jl_array_data (pcache c))) = Some (jl_tparam0 (pcache c'))
  ∧ newsz ≤ jl_array_nrows (pcache c') ∧ cap_ok (jl_array_nrows (pcache c'))
  ∧ Forall (λ v, 0 ≤ v < maxValue (jl_tparam0 (pcache c'))) (jl_array_data (pcache c'))
  ∧ placed hash data (pcache c').
Proof.
  intros Hwf Hcap Hbuild Hrun.
  destruct (rehash_sound _ _ _ _ _ _ _ Hwf Hcap Hrun)
    as (k & _ & _ & Hb & _ & Hperm & Hwf' & Hty' & Hn & Hge & _ & Hw & Hadm).
  assert (max_slot np (jl_array_data (pcache c)) < 0x7FFFFFFF) as Hlt.
  { destruct Hbuild as [Hon|?]; [|done]. destruct Hadm as [Hoff|?]; [|done].
    by rewrite Hon in Hoff. }
  pose proof (max_slot_le (jl_array_data (pcache c)) np) as [Hnp Hle].
  split; [by apply (build_type _ _ _ _ _ _ Hwf (cap_ok_attempt _ k Hcap) Hle Hlt Hb)|].
  split; [done|]. split; [rewrite Hn; by apply cap_ok_attempt|].
  split; [|by apply (rehash_placed (assertions:=assertions) fuel c c' hash data newsz np)].
  unfold maxValue. apply Forall_entries.
  { assert (2 ^ 8 ≤ 2 ^ width (jl_tparam0 (pcache c'))) by by apply int_width_ge_8. lia. }
  rewrite Hperm. apply entries_Forall.
  pose proof (wf_nonneg _ Hwf) as Hnn.
  rewrite Forall_forall in Hnn, Hle. apply Forall_forall. intros v Hv.
  specialize (Hnn v Hv). specialize (Hle v Hv). simpl in *. lia.
Qed.

Lemma build_fits (a : jl_array_t) hash data (np cap : Z) :
  wf_array a → is_pow2 cap → 2 ≤ cap → Forall (λ v, v ≤ np) (jl_array_data a) →
  np < 0x7FFFFFFF →
  Z.of_nat (occupied (jl_array_data a)) ≤ probe_len cap →
  ∃ newa, build assertions a hash data np cap = Ret (Some newa)
    ∧ wf_array newa ∧ int_eltype (jl_tparam0 newa) = true
    ∧ jl_array_nrows newa = cap
    ∧ entries (jl_array_data newa) ≡ₚ entries (jl_array_data a)
    ∧ np < 2 ^ width (jl_tparam0 newa) - 1.
Proof.
  intros Hwf Hp2 Hcap Hle Hnp Hocc.
  destruct (build_props (assertions:=assertions) a hash data np cap Hwf ltac:(by right) Hle)
    as [(_ & ? & _)|(_ & r & Hb & Hr)]; [lia|].
  destruct r as [newa|]; [|destruct Hr as [_ [?|?]]; lia].
  exists newa. destruct Hr as (? & ? & ? & ? & ? & _). repeat split; (done || lia).
Qed.

(** X15: an insertion into a table of at least two slots whose entries
    are fewer than the slots a probe visits does not grow the table.
    When [val + 1] is within the width, nothing is published and the
    table gets the entry [val + 1] in place; when it is beyond the
    width, one table of the same capacity and of the narrowest class
    strictly above [val + 1] is published and gets the entry.  In both
    cases the value is stored in full and the entries stay on their
    probe chains. *)
Theorem insert_with_room (HT : Z) (fuel : nat) (c : cache_ref) hash (val mx : Z) data :
  wf_array (pcache c) → is_pow2 (jl_array_nrows (pcache c)) →
  2 ≤ jl_array_nrows (pcache c) →
  placed hash data (pcache c) →
  jl_max_int (pcache c) = Ret mx → 0 ≤ val → val + 1 < 0x7FFFFFFF →
  Z.of_nat (occupied (jl_array_data (pcache c))) < probe_len (jl_array_nrows (pcache c)) →
  (1 ≤ fuel)%nat →
  ∃ c', jl_smallintset_insert assertions HT fuel c hash val data = Ret c'
    ∧ jl_array_nrows (pcache c') = jl_array_nrows (pcache c)
    ∧ entries (jl_array_data (pcache c'))
      ≡ₚ (val + 1) :: entries (jl_array_data (pcache c))
    ∧ placed hash data (pcache c')
    ∧ (if decide (val + 1 ≤ mx)
       then released c' = released c ∧ jl_tparam0 (pcache c') = jl_tparam0 (pcache c)
       else strict_class (val + 1) = Some (jl_tparam0 (pcache c'))
            ∧ ∃ newa, released c' = released c ++ [newa]
                      ∧ jl_array_nrows newa = jl_array_nrows (pcache c)).
Proof.
  intros Hwf Hp2 Hsz Hplaced Hmx Hval0 Hval Hocc Hfuel.
  destruct fuel as [|fuel]; [lia|].
  assert (wrap (val + 1) = val + 1) as Hwrap by (apply Z.mod_small; lia).
  assert (int_eltype (jl_tparam0 (pcache c)) = true) as Hty.
  { destruct Hwf as [[? _]|[_ Hnil]]; [done|].
    unfold jl_array_nrows in Hsz. rewrite Hnil in Hsz. simpl in Hsz. lia. }
  assert (∀ (c0 : cache_ref),
    wf_array (pcache c0) → int_eltype (jl_tparam0 (pcache c0)) = true →
    jl_array_nrows (pcache c0) = jl_array_nrows (pcache c) →
    entries (jl_array_data (pcache c0)) ≡ₚ entries (jl_array_data (pcache c)) →
    placed hash data (pcache c0) →
    val + 1 < 2 ^ width (jl_tparam0 (pcache c0)) →
    ∃ c', insert_loop assertions HT (S fuel) (S fuel) c0 hash val data = Ret c'
      ∧ jl_array_nrows (pcache c') = jl_array_nrows (pcache c)
      ∧ entries (jl_array_data (pcache c'))
        ≡ₚ (val + 1) :: entries (jl_array_data (pcache c))
      ∧ placed hash data (pcache c')
      ∧ released c' = released c0
      ∧ jl_tparam0 (pcache c') = jl_tparam0 (pcache c0)) as Hplace.
  { intros c0 Hwf0 Hty0 Hn0 Hperm0 Hpl0 Hfit0.
    destruct (insert_cases (pcache c0) (hash val data) (wrap (val + 1)) Hty0)
      as [[_ Hfull]|(p & Hp & _ & Hz & Hok)].
    { rewrite Hn0. by right. }
    { exfalso. rewrite Hn0 in Hfull. destruct Hfull as [?|Hfull]; [lia|].
      unfold occupied in *. fold (entries (jl_array_data (pcache c0))) in Hfull.
      fold (entries (jl_array_data (pcache c))) in Hocc.
      rewrite Hperm0 in Hfull. lia. }
    rewrite (insert_loop_room _ _ _ _ _ _ _ _ Hok). eexists. split; [done|].
    cbn [pcache released]. rewrite Hwrap.
    destruct (insert_result _ _ _ _ _ Hty0 ltac:(rewrite Hn0; by right) Hok)
      as [[? _]|(_ & _ & _ & p' & Hscan & Hp' & Heq)]; [done|].
    rewrite Hwrap in Heq. rewrite Heq.
    pose proof (scan_empty_Some _ _ _ Hscan) as [_ Hz'].
    destruct (store_props (pcache c0) p' (val + 1) Hp' Hz' ltac:(lia))
      as (Hty' & Hn' & Hperm').
    split; [by rewrite Hn'|]. split; [by rewrite Hperm', Hperm0|]. split; [|done].
    apply placed_store; [by rewrite Hn0|done| |done|lia].
    by replace (val + 1 - 1) with val by lia. }
  unfold jl_smallintset_insert. rewrite Hwrap, Hmx. cbn [bind].
  destruct (Z.gtb_spec (val + 1) mx) as [Hgt|Hle].
  - (* widening at the same capacity *)
    pose proof (wf_le_max_int _ _ Hwf Hmx) as Hlemx.
    assert (Forall (λ v, v ≤ val + 1) (jl_array_data (pcache c))) as Hle.
    { eapply Forall_impl; [exact Hlemx|]. simpl. lia. }
    unfold smallintset_rehash.
    rewrite rehash_np_spec; [|by apply wf_arr_ok|lia|unfold jl_array_nrows; lia].
    rewrite drop_0, (max_slot_id _ _ Hle). cbn [bind].
    rewrite rehash_loop_step by by apply wf_arr_ok.
    destruct (build_fits (pcache c) hash data (val + 1) (jl_array_nrows (pcache c))
                Hwf Hp2 Hsz Hle Hval ltac:(lia))
      as (newa & Hb & Hwfn & Htyn & Hnn & Hpermn & Hwn).
    rewrite Hb. cbn [bind].
    destruct (Hplace (CacheRef newa (released c ++ [newa])))
      as (c' & -> & Hn' & Hperm' & Hpl' & Hrel' & Hty'); try done.
    { eapply build_placed; [exact Hwf|by right|exact Hle|exact Hb]. }
    { cbn [pcache]. lia. }
    exists c'. split; [done|]. do 3 (split; [done|]).
    rewrite decide_False by lia. cbn [pcache released] in *. split.
    + rewrite Hty'. eapply build_type; [exact Hwf|by right|exact Hle|exact Hval|exact Hb].
    + by exists newa.
  - cbn [bind].
    destruct (Hplace c) as (c' & -> & Hn' & Hperm' & Hpl' & Hrel' & Hty'); try done.
    { pose proof (wf_le_max_int _ _ Hwf Hmx).
      unfold jl_max_int in Hmx. destruct (jl_tparam0 (pcache c)); try done;
        injection Hmx as <-; simpl; lia. }
    exists c'. split; [done|]. do 3 (split; [done|]).
    by rewrite decide_True by lia.
Qed.

(** X7: in a table whose entries all sit on their probe chains, a
    lookup with the hash of a stored index and an equality callback
    that accepts it and rejects the other entries returns that index. *)
Theorem placed_lookup (a : jl_array_t) hash eq key data (v : Z) :
  int_eltype (jl_tparam0 a) = true → cap_ok (jl_array_nrows a) →
  placed hash data a → v ∈ entries (jl_array_data a) →
  matches_only eq key data (hash (v - 1) data) (jl_array_data a) v →
  jl_smallintset_lookup a eq key data (hash (v - 1) data) = Ret (v - 1).
Proof. apply placed_finds. Qed.

(** X9: an insertion that returns keeps what the table held: the new
    table is well formed, its capacity is a power of two and not below
    the old one, its entries are the old entries together with
    [val + 1] cut to the new width (nothing is added when that is
    zero), the tables published before stay published, and when no
    table was published the element type and the capacity are the old
    ones. *)
Theorem insert_keeps_entries (HT h : Z) (fuel : nat) (c c' : cache_ref) hash
    (val : Z) data :
  HT = 2 ^ h → 1 ≤ h →
  wf_array (pcache c) → cap_ok (jl_array_nrows (pcache c)) → 0 ≤ val < 2 ^ 63 →
  jl_smallintset_insert assertions HT fuel c hash val data = Ret c' →
  wf_array (pcache c') ∧ int_eltype (jl_tparam0 (pcache c')) = true
  ∧ is_pow2 (jl_array_nrows (pcache c'))
  ∧ jl_array_nrows (pcache c) ≤ jl_array_nrows (pcache c')
  ∧ entries (jl_array_data (pcache c'))
    ≡ₚ (if decide ((val + 1) mod 2 ^ width (jl_tparam0 (pcache c')) = 0) then []
        else [(val + 1) mod 2 ^ width (jl_tparam0 (pcache c'))])
       ++ entries (jl_array_data (pcache c))
  ∧ (∃ new, released c' = released c ++ new)
  ∧ (released c' = released c →
     jl_tparam0 (pcache c') = jl_tparam0 (pcache c)
     ∧ jl_array_nrows (pcache c') = jl_array_nrows (pcache c)).
Proof. apply insert_entries. Qed.

(** X10: an insertion into a table whose entries sit on their probe
    chains, when [val + 1] fits the width of the table it ends with,
    keeps the chains, adds the entry [val + 1] to the old ones, and
    after it a lookup finds the new index and every old one (with the
    hash of that index and an equality callback that accepts it and
    rejects the other entries). *)
Theorem insert_all_found (HT h : Z) (fuel : nat) (c c' : cache_ref) hash eq
    (val : Z) data :
  HT = 2 ^ h → 1 ≤ h →
  wf_array (pcache c) → cap_ok (jl_array_nrows (pcache c)) →
  placed hash data (pcache c) → 0 ≤ val →
  jl_smallintset_insert assertions HT fuel c hash val data = Ret c' →
  val + 1 < 2 ^ width (jl_tparam0 (pcache c')) →
  placed hash data (pcache c')
  ∧ entries (jl_array_data (pcache c')) ≡ₚ (val + 1) :: entries (jl_array_data (pcache c))
  ∧ ∀ key v, v ∈ (val + 1) :: entries (jl_array_data (pcache c)) →
      matches_only eq key data (hash (v - 1) data) (jl_array_data (pcache c')) v →
      jl_smallintset_lookup (pcache c') eq key data (hash (v - 1) data) = Ret (v - 1).
Proof. apply insert_placed_found. Qed.

End Room.

(** ** Instances *)

Ltac entry_cases H :=
  unfold entries in H; simpl in H;
  repeat (apply elem_of_cons in H as [->|H]); try (by apply elem_of_nil in H).

Lemma insert_then_lookup_witness :
  jl_smallintset_lookup (JlArray jl_uint8_type [3; 5; 7; 9]) eq_id 8 tt 8 = Ret (9 - 1).
Proof.
  apply (insert_then_lookup (pcache three_of_four) (JlArray jl_uint8_type [3; 5; 7; 9])
           eq_id 8 tt 8 9).
  - reflexivity.
  - right. exists 2. split; [lia|reflexivity].
  - simpl. lia.
  - split; [reflexivity|]. intros u Hu Hne. entry_cases Hu; first [reflexivity|by destruct Hne].
  - reflexivity.
Defined.

Lemma lookup_stable_witness :
  jl_smallintset_lookup (JlArray jl_uint8_type [3; 5; 7; 9]) eq_id 6 tt 6 = Ret 6.
Proof.
  apply (lookup_stable (pcache three_of_four) (JlArray jl_uint8_type [3; 5; 7; 9])
           eq_id 6 tt 6 8 9 6 true).
  - reflexivity.
  - right. exists 2. split; [lia|reflexivity].
  - reflexivity.
  - lia.
  - reflexivity.
Defined.

Lemma rebuilt_four_placed : placed hash_id tt (pcache rebuilt_four).
Proof.
  apply (rehash_placed (assertions:=true) 4 three_of_four rebuilt_four hash_id tt 2 0).
  - left. split; [reflexivity|]. simpl. repeat constructor; lia.
  - right. exists 1. split; [lia|reflexivity].
  - reflexivity.
Qed.

Lemma placed_lookup_witness :
  jl_smallintset_lookup (pcache rebuilt_four) eq_id 6 tt (hash_id (7 - 1) tt) = Ret (7 - 1).
Proof.
  apply (placed_lookup (pcache rebuilt_four) hash_id eq_id 6 tt 7).
  - reflexivity.
  - right. exists 2. split; [lia|reflexivity].
  - exact rebuilt_four_placed.
  - unfold entries. simpl. apply elem_of_cons. right. apply elem_of_cons. right.
    apply elem_of_cons. by left.
  - split; [reflexivity|]. intros u Hu Hne. entry_cases Hu; first [reflexivity|by destruct Hne].
Defined.

Lemma rehash_then_lookup_witness :
  jl_smallintset_lookup (pcache rebuilt_four) eq_id 6 tt (hash_id (7 - 1) tt) = Ret (7 - 1).
Proof.
  apply (rehash_then_lookup (assertions:=true) 4 three_of_four rebuilt_four
           hash_id eq_id 6 tt 2 0 7).
  - left. split; [reflexivity|]. simpl. repeat constructor; lia.
  - right. exists 1. split; [lia|reflexivity].
  - reflexivity.
  - unfold entries. simpl. apply elem_of_cons. right. apply elem_of_cons. right.
    apply elem_of_cons. by left.
  - split; [reflexivity|]. intros u Hu Hne. entry_cases Hu; first [reflexivity|by destruct Hne].
Defined.

Lemma insert_keeps_entries_witness :
  ∃ c', jl_smallintset_insert true 32 8 empty_set hash_id 3 tt = Ret c'
    ∧ wf_array (pcache c') ∧ int_eltype (jl_tparam0 (pcache c')) = true
    ∧ is_pow2 (jl_array_nrows (pcache c'))
    ∧ jl_array_nrows (pcache empty_set) ≤ jl_array_nrows (pcache c')
    ∧ entries (jl_array_data (pcache c'))
      ≡ₚ (if decide ((3 + 1) mod 2 ^ width (jl_tparam0 (pcache c')) = 0) then []
          else [(3 + 1) mod 2 ^ width (jl_tparam0 (pcache c'))])
         ++ entries (jl_array_data (pcache empty_set))
    ∧ (∃ new, released c' = released empty_set ++ new)
    ∧ (released c' = released empty_set →
       jl_tparam0 (pcache c') = jl_tparam0 (pcache empty_set)
       ∧ jl_array_nrows (pcache c') = jl_array_nrows (pcache empty_set)).
Proof.
  eexists. split; [by vm_compute|].
  apply (insert_keeps_entries (assertions:=true) 32 5 8 empty_set _ hash_id 3 tt).
  - reflexivity.
  - lia.
  - right. split; reflexivity.
  - left. reflexivity.
  - lia.
  - by vm_compute.
Defined.

Lemma insert_all_found_witness :
  ∃ c', jl_smallintset_insert true 32 8 empty_set hash_id 3 tt = Ret c'
    ∧ placed hash_id tt (pcache c')
    ∧ entries (jl_array_data (pcache c'))
      ≡ₚ (3 + 1) :: entries (jl_array_data (pcache empty_set))
    ∧ ∀ key v, v ∈ (3 + 1) :: entries (jl_array_data (pcache empty_set)) →
        matches_only eq_id key tt (hash_id (v - 1) tt) (jl_array_data (pcache c')) v →
        jl_smallintset_lookup (pcache c') eq_id key tt (hash_id (v - 1) tt) = Ret (v - 1).
Proof.
  eexists. split; [by vm_compute|].
  apply (insert_all_found (assertions:=true) 32 5 8 empty_set _ hash_id eq_id 3 tt).
  - reflexivity.
  - lia.
  - right. split; reflexivity.
  - left. reflexivity.
  - intros v Hv. by apply elem_of_nil in Hv.
  - lia.
  - by vm_compute.
  - by vm_compute.
Defined.

Lemma insert_many_found_witness :
  ∃ c', insert_many true 32 8 empty_set hash_id tt [3; 40; 7] = Ret c'
    ∧ jl_smallintset_lookup (pcache c') eq_key 40 tt (hash_id 40 tt) = Ret 40.
Proof.
  eexists. split; [by vm_compute|].
  apply (insert_many_found (assertions:=true) 32 5 8 [3; 40; 7] empty_set _ hash_id eq_key tt 40).
  - reflexivity.
  - lia.
  - right. split; reflexivity.
  - left. reflexivity.
  - intros v Hv. by apply elem_of_nil in Hv.
  - repeat constructor; lia.
  - reflexivity.
  - by vm_compute.
  - apply elem_of_cons. right. apply elem_of_cons. by left.
Defined.

Lemma rehash_shape_witness :
  strict_class (max_slot 0 (jl_array_data (pcache three_of_four)))
  = Some (jl_tparam0 (pcache rebuilt_four))
  ∧ 2 ≤ jl_array_nrows (pcache rebuilt_four)
  ∧ cap_ok (jl_array_nrows (pcache rebuilt_four))
  ∧ Forall (λ v, 0 ≤ v < maxValue (jl_tparam0 (pcache rebuilt_four)))
      (jl_array_data (pcache rebuilt_four))
  ∧ placed hash_id tt (pcache rebuilt_four).
Proof.
  apply (rehash_shape (assertions:=true) 4 three_of_four rebuilt_four hash_id tt 2 0).
  - left. split; [reflexivity|]. simpl. repeat constructor; lia.
  - right. exists 1. split; [lia|reflexivity].
  - left. reflexivity.
  - reflexivity.
Defined.

Lemma insert_with_room_witness :
  ∃ c', jl_smallintset_insert true 32 1 rebuilt_four hash_id 0 tt = Ret c'
    ∧ jl_array_nrows (pcache c') = jl_array_nrows (pcache rebuilt_four)
    ∧ entries (jl_array_data (pcache c'))
      ≡ₚ (0 + 1) :: entries (jl_array_data (pcache rebuilt_four))
    ∧ placed hash_id tt (pcache c')
    ∧ (if decide (0 + 1 ≤ 255)
       then released c' = released rebuilt_four
            ∧ jl_tparam0 (pcache c') = jl_tparam0 (pcache rebuilt_four)
       else strict_class (0 + 1) = Some (jl_tparam0 (pcache c'))
            ∧ ∃ newa, released c' = released rebuilt_four ++ [newa]
                      ∧ jl_array_nrows newa = jl_array_nrows (pcache rebuilt_four)).
Proof.
  apply (insert_with_room (assertions:=true) 32 1 rebuilt_four hash_id 0 255 tt).
  - left. split; [reflexivity|]. simpl. repeat constructor; lia.
  - exists 2. split; [lia|reflexivity].
  - by vm_compute.
  - exact rebuilt_four_placed.
  - reflexivity.
  - lia.
  - lia.
  - by vm_compute.
  - lia.
Defined.

(** ** The growth step *)

(** X16: the capacity an insertion asks for when the table is full is a
    power of two, strictly above the current capacity, at least the
    baseline, and at most the larger of the baseline and four times the
    current capacity (for a current capacity of zero or a power of two
    up to [2^61] and a baseline [2^h] with [1 ≤ h ≤ 62]). *)
Theorem growth_increases (HT h sz m : Z) :
  HT = 2 ^ h → 1 ≤ h ≤ 62 → cap_at sz m → m ≤ 61 →
  is_pow2 (grow_newsz HT sz)
  ∧ sz < grow_newsz HT sz ∧ HT ≤ grow_newsz HT sz
  ∧ grow_newsz HT sz ≤ Z.max HT (4 * sz).
Proof.
  intros HHT Hh Hcap Hm.
  destruct (grow_pow2 HT h sz m HHT Hh Hcap Hm) as (m' & Hg & Hm' & Hhm).
  split; [exists m'; split; [|done]; destruct Hcap as [[_ ->]|[? _]]; lia|].
  assert (HT ≤ grow_newsz HT sz) as Hbase.
  { rewrite Hg, HHT. apply Z.pow_le_mono_r; lia. }
  assert (sz < grow_newsz HT sz) as Hlt.
  { destruct Hcap as [[-> _]|[Hm0 ->]].
    - rewrite Hg. apply Z.pow_pos_nonneg; lia.
    - rewrite Hg. apply Z.pow_lt_mono_r; lia. }
  do 2 (split; [done|]).
  unfold grow_newsz in *. destruct (Z.ltb_spec sz HT); [lia|].
  assert (0 ≤ sz < 2 ^ 62) as Hsz.
  { destruct Hcap as [[-> _]|[Hm0 ->]]; [lia|].
    split; [apply Z.pow_nonneg; lia|apply Z.pow_lt_mono_r; lia]. }
  destruct (_ || _); [rewrite double_small by lia|rewrite quad_small by lia]; lia.
Qed.

Lemma growth_increases_witness :
  is_pow2 (grow_newsz 32 512)
  ∧ 512 < grow_newsz 32 512 ∧ 32 ≤ grow_newsz 32 512
  ∧ grow_newsz 32 512 ≤ Z.max 32 (4 * 512).
Proof.
  apply (growth_increases 32 5 512 9).
  - reflexivity.
  - lia.
  - right. split; [lia|reflexivity].
  - lia.
Defined.
